(** * rpi-infodisplay: kiosk client, request signing and device registry

    A shallow embedding of
    - [src/main.js]: the Electron kiosk shell (the [saveProps] action,
      [createMainWindow], [getSystemInfo] and [showInfoWindow]) and the
      page of its information overlay;
    - the request-signing code of the backend specification
      ([signRequest] and [verifyRequest]);
    - the controller-side device registry and command queue, which the
      repository only describes;
    - the steps of the installer scripts that add the daily update job
      and the start of the kiosk at login.

    Times are milliseconds since the epoch, as [Date.now()] returns them. *)

From Stdlib Require Import ZArith List String Ascii Bool Lia.
From Stdlib Require Import Floats.PrimFloat Floats.SpecFloat Floats.FloatOps.
From Stdlib Require Numbers.Cyclic.Int63.Uint63.
From Stdlib Require Import Numbers.DecimalString.
Import ListNotations.

(* ================================================================== *)
(** * JavaScript values *)
(* ================================================================== *)

Module JS.

(** The JSON-shaped fragment of JavaScript values the program handles:
    numbers are IEEE binary64, objects keep their properties in insertion
    order. *)
Inductive value : Type :=
| VUndefined
| VNull
| VBool (b : bool)
| VNum (x : float)
| VStr (s : string)
| VArr (elems : list value)
| VObj (props : list (string * value)).

Definition object := list (string * value).

(** [o\[k\]] for an own property; [None] when [o] has no such property. *)
Fixpoint getOwn (o : object) (k : string) : option value :=
  match o with
  | [] => None
  | (k', v) :: rest => if String.eqb k k' then Some v else getOwn rest k
  end.

(** [o.k]: a missing property reads as [undefined]. *)
Definition get (o : object) (k : string) : value :=
  match getOwn o k with
  | Some v => v
  | None => VUndefined
  end.

(** [o.k = v]: an existing property keeps its place, a new one goes last. *)
Fixpoint set (o : object) (k : string) (v : value) : object :=
  match o with
  | [] => [(k, v)]
  | (k', v') :: rest =>
      if String.eqb k k' then (k', v) :: rest else (k', v') :: set rest k v
  end.

(** [v.k] on an arbitrary value: [None] is the [TypeError] raised when [v]
    is [undefined] or [null]; a primitive or an array has none of the
    property names this program reads. *)
Definition member (v : value) (k : string) : option value :=
  match v with
  | VUndefined | VNull => None
  | VObj o => Some (get o k)
  | _ => Some VUndefined
  end.

(** [v ?? d]. *)
Definition nullish (v d : value) : value :=
  match v with
  | VUndefined | VNull => d
  | _ => v
  end.

(** The three library functions of the JavaScript runtime whose results the
    program only passes on. *)
Class Runtime : Type := {
  (** [Number::toString] of a finite number *)
  Number_toString : float -> string;
  (** the global [parseFloat] *)
  parseFloat : value -> float;
  (** [new Date(s).getTime()]; [None] is [NaN] *)
  Date_getTime : string -> option Z
}.

End JS.

(* ================================================================== *)
(** * JSON.stringify and JSON.parse *)
(* ================================================================== *)

Module JSON.
Import JS.

(** What [JSON.stringify] keeps of a value: [None] is [undefined] (the
    value has no JSON text); a property whose value has none is left out,
    an array element is written [null]; a number that is not finite
    becomes [null], and [-0] is written [0]. *)
Fixpoint toJSON (v : value) : option value :=
  match v with
  | VUndefined => None
  | VNull => Some VNull
  | VBool b => Some (VBool b)
  | VNum x =>
      if is_finite x
      then Some (VNum (if is_zero x then zero else x))
      else Some VNull
  | VStr s => Some (VStr s)
  | VArr elems =>
      Some (VArr (map (fun e => match toJSON e with
                                | Some j => j
                                | None => VNull
                                end) elems))
  | VObj props =>
      Some (VObj ((fix keep (ps : list (string * value)) :=
                     match ps with
                     | [] => []
                     | (k, e) :: rest =>
                         match toJSON e with
                         | Some j => (k, j) :: keep rest
                         | None => keep rest
                         end
                     end) props))
  end.

Definition toJSON_props (ps : object) : object :=
  match toJSON (VObj ps) with
  | Some (VObj qs) => qs
  | _ => []
  end.

Definition hexDigit (n : nat) : ascii :=
  match n with
  | 0 => "0" | 1 => "1" | 2 => "2" | 3 => "3" | 4 => "4" | 5 => "5"
  | 6 => "6" | 7 => "7" | 8 => "8" | 9 => "9" | 10 => "a" | 11 => "b"
  | 12 => "c" | 13 => "d" | 14 => "e" | _ => "f"
  end%char.

(** The string made of one double quote. *)
Definition dquote : string := String (ascii_of_nat 34) "".

(** One character of [QuoteJSONString]. *)
Definition escapeChar (c : ascii) : string :=
  let n := nat_of_ascii c in
  if Nat.eqb n 34 then String "\"%char dquote
  else if Nat.eqb n 92 then "\\"%string
  else if Nat.eqb n 8 then "\b"%string
  else if Nat.eqb n 12 then "\f"%string
  else if Nat.eqb n 10 then "\n"%string
  else if Nat.eqb n 13 then "\r"%string
  else if Nat.eqb n 9 then "\t"%string
  else if Nat.ltb n 32
       then ("\u00" ++ String (hexDigit (n / 16)) (String (hexDigit (n mod 16)) ""))%string
       else String c "".

Fixpoint escape (s : string) : string :=
  match s with
  | EmptyString => ""%string
  | String c rest => (escapeChar c ++ escape rest)%string
  end.

Definition quote (s : string) : string :=
  (dquote ++ escape s ++ dquote)%string.

Fixpoint join (sep : string) (parts : list string) : string :=
  match parts with
  | [] => ""%string
  | [p] => p
  | p :: rest => (p ++ sep ++ join sep rest)%string
  end.

Section Text.
Context {rt : Runtime}.

(** The text of a JSON document, with no indentation. *)
Fixpoint print (v : value) : string :=
  match v with
  | VUndefined | VNull => "null"%string
  | VBool true => "true"%string
  | VBool false => "false"%string
  | VNum x => Number_toString x
  | VStr s => quote s
  | VArr elems => ("[" ++ join "," (map print elems) ++ "]")%string
  | VObj props =>
      ("{" ++ join "," (map (fun kv => quote (fst kv) ++ ":" ++ print (snd kv)) props)
           ++ "}")%string
  end.

(** [JSON.stringify(v)]; [None] is [undefined]. *)
Definition stringify (v : value) : option string :=
  option_map print (toJSON v).

End Text.

(** ** JSON.parse

    The reader covers the JSON grammar except numbers with a fraction or
    an exponent, integers of [2^53] and more, and [\u] escapes: on those,
    as on a text that is not JSON, it gives [None]. A duplicate key keeps
    the place of its first occurrence and the value of its last. *)

Definition isWhite (c : ascii) : bool :=
  let n := nat_of_ascii c in
  Nat.eqb n 32 || Nat.eqb n 9 || Nat.eqb n 10 || Nat.eqb n 13.

Fixpoint skipWhite (s : string) : string :=
  match s with
  | String c rest => if isWhite c then skipWhite rest else s
  | EmptyString => s
  end.

Definition isDigit (c : ascii) : bool :=
  let n := nat_of_ascii c in
  Nat.leb 48 n && Nat.leb n 57.

(** The character an escape [\e] stands for. *)
Definition unescapeChar (e : ascii) : option ascii :=
  let n := nat_of_ascii e in
  if Nat.eqb n 34 then Some e
  else if Nat.eqb n 92 then Some e
  else if Nat.eqb n 47 then Some e
  else if Nat.eqb n 98 then Some (ascii_of_nat 8)
  else if Nat.eqb n 102 then Some (ascii_of_nat 12)
  else if Nat.eqb n 110 then Some (ascii_of_nat 10)
  else if Nat.eqb n 114 then Some (ascii_of_nat 13)
  else if Nat.eqb n 116 then Some (ascii_of_nat 9)
  else None.

(** The characters of a string literal after its opening quote, and the
    text after its closing quote. *)
Fixpoint parseString (s : string) : option (string * string) :=
  match s with
  | EmptyString => None
  | String c rest =>
      let n := nat_of_ascii c in
      if Nat.eqb n 34 then Some (EmptyString, rest)
      else if Nat.eqb n 92 then
        match rest with
        | String e rest' =>
            match unescapeChar e, parseString rest' with
            | Some ch, Some (str, after) => Some (String ch str, after)
            | _, _ => None
            end
        | EmptyString => None
        end
      else if Nat.ltb n 32 then None
      else
        match parseString rest with
        | Some (str, after) => Some (String c str, after)
        | None => None
        end
  end.

(** The digits at the head of a text, read as a natural number. *)
Fixpoint parseDigits (acc : Z) (s : string) : Z * string :=
  match s with
  | String c rest =>
      if isDigit c
      then parseDigits (10 * acc + Z.of_nat (nat_of_ascii c - 48)) rest
      else (acc, s)
  | EmptyString => (acc, s)
  end.

Definition startsNumberTail (s : string) : bool :=
  match s with
  | String c _ =>
      let n := nat_of_ascii c in
      Nat.eqb n 46 || Nat.eqb n 101 || Nat.eqb n 69
  | EmptyString => false
  end.

(** An integer literal with no sign, with no leading zero. *)
Definition parseNatural (s : string) : option (float * string) :=
  match s with
  | String c rest =>
      if isDigit c then
        let (n, after) := parseDigits 0 s in
        let leadingZero := Nat.eqb (nat_of_ascii c) 48 &&
                           match rest with
                           | String d _ => isDigit d
                           | EmptyString => false
                           end in
        if leadingZero || startsNumberTail after || negb (n <? 2 ^ 53)%Z
        then None
        else Some (of_uint63 (Uint63.of_Z n), after)
      else None
  | EmptyString => None
  end.

Definition parseNumber (s : string) : option (float * string) :=
  match s with
  | String c rest =>
      if Nat.eqb (nat_of_ascii c) 45
      then match parseNatural rest with
           | Some (x, after) => Some (opp x, after)
           | None => None
           end
      else parseNatural s
  | EmptyString => None
  end.

Fixpoint stripPrefix (p s : string) : option string :=
  match p, s with
  | EmptyString, _ => Some s
  | String a p', String b s' => if Ascii.eqb a b then stripPrefix p' s' else None
  | String _ _, EmptyString => None
  end.

Definition headIs (n : nat) (s : string) : option string :=
  match s with
  | String c rest => if Nat.eqb (nat_of_ascii c) n then Some rest else None
  | EmptyString => None
  end.

Fixpoint parseValue (fuel : nat) (s : string) : option (value * string) :=
  match fuel with
  | O => None
  | S fuel' =>
      let s := skipWhite s in
      match headIs 123 s, headIs 91 s, headIs 34 s with
      | Some rest, _, _ =>
          match headIs 125 (skipWhite rest) with
          | Some after => Some (VObj [], after)
          | None => parseMembers fuel' [] rest
          end
      | None, Some rest, _ =>
          match headIs 93 (skipWhite rest) with
          | Some after => Some (VArr [], after)
          | None => parseElements fuel' [] rest
          end
      | None, None, Some rest =>
          match parseString rest with
          | Some (str, after) => Some (VStr str, after)
          | None => None
          end
      | None, None, None =>
          match stripPrefix "true" s, stripPrefix "false" s, stripPrefix "null" s with
          | Some after, _, _ => Some (VBool true, after)
          | None, Some after, _ => Some (VBool false, after)
          | None, None, Some after => Some (VNull, after)
          | None, None, None =>
              match parseNumber s with
              | Some (x, after) => Some (VNum x, after)
              | None => None
              end
          end
      end
  end

with parseElements (fuel : nat) (acc : list value) (s : string)
  : option (value * string) :=
  match fuel with
  | O => None
  | S fuel' =>
      match parseValue fuel' s with
      | Some (v, rest) =>
          let rest := skipWhite rest in
          match headIs 44 rest, headIs 93 rest with
          | Some after, _ => parseElements fuel' (acc ++ [v])%list after
          | None, Some after => Some (VArr (acc ++ [v])%list, after)
          | None, None => None
          end
      | None => None
      end
  end

with parseMembers (fuel : nat) (acc : object) (s : string)
  : option (value * string) :=
  match fuel with
  | O => None
  | S fuel' =>
      match headIs 34 (skipWhite s) with
      | Some rest =>
          match parseString rest with
          | Some (k, rest) =>
              match headIs 58 (skipWhite rest) with
              | Some rest =>
                  match parseValue fuel' rest with
                  | Some (v, rest) =>
                      let rest := skipWhite rest in
                      match headIs 44 rest, headIs 125 rest with
                      | Some after, _ => parseMembers fuel' (set acc k v) after
                      | None, Some after => Some (VObj (set acc k v), after)
                      | None, None => None
                      end
                  | None => None
                  end
              | None => None
              end
          | None => None
          end
      | None => None
      end
  end.

(** [JSON.parse(text)]; [None] is the [SyntaxError]. *)
Definition parse (text : string) : option value :=
  match parseValue (2 * String.length text + 2) text with
  | Some (v, rest) =>
      match skipWhite rest with
      | EmptyString => Some v
      | String _ _ => None
      end
  | None => None
  end.

(** A text written with single quotes where JSON has double quotes. *)
Fixpoint text (s : string) : string :=
  match s with
  | EmptyString => EmptyString
  | String c rest =>
      String (if Nat.eqb (nat_of_ascii c) 39 then ascii_of_nat 34 else c) (text rest)
  end.

End JSON.

(* ================================================================== *)
(** * The kiosk shell: [src/main.js] *)
(* ================================================================== *)

Module Kiosk.
Import JS JSON.

(** [screen.getPrimaryDisplay()]: [bounds.x], [bounds.y], [size.width]
    and [size.height]. *)
Record Display : Type := {
  bounds_x : Z;
  bounds_y : Z;
  size_width : Z;
  size_height : Z
}.

(** What the program makes of a [BrowserWindow]: the options it is built
    with, the argument of the last [loadURL] and [setZoomFactor], and the
    style sheets inserted. *)
Record BrowserWindow : Type := {
  x : Z;
  y : Z;
  width : Z;
  height : Z;
  fullscreen : value;
  frame : value;
  loadedURL : option value;
  zoomFactor : option value;
  insertedCSS : list string
}.

(** The module-level variables [config] and [mainWindow], and
    [./config.json], held as the JSON document its text denotes. *)
Record State : Type := {
  config : object;
  configFile : value;
  diskWritable : bool;
  mainWindow : option BrowserWindow
}.

Inductive error : Type :=
| TypeError
| IOError.

Inductive outcome (A : Type) : Type :=
| Return (a : A)
| Throw (e : error).
Arguments Return {A} a.
Arguments Throw {A} e.

(** A statement sequence: it runs on the state and either completes or
    throws, keeping the effects made before the throw. *)
Definition action (A : Type) : Type := State -> outcome A * State.

Definition ret {A : Type} (a : A) : action A :=
  fun st => (Return a, st).

Definition throw {A : Type} (e : error) : action A :=
  fun st => (Throw e, st).

Definition bind {A B : Type} (m : action A) (f : A -> action B) : action B :=
  fun st =>
    match m st with
    | (Return a, st') => f a st'
    | (Throw e, st') => (Throw e, st')
    end.

Notation "x <- m ;; k" := (bind m (fun x => k))
  (at level 61, m at next level, right associativity).
Notation "m ;;; k" := (bind m (fun _ => k))
  (at level 61, right associativity).

(** An expression that raises [TypeError] when it reads a property of
    [undefined] or [null]. *)
Definition eval {A : Type} (r : option A) : action A :=
  match r with
  | Some a => ret a
  | None => throw TypeError
  end.

(** [config.k = v]. *)
Definition assignConfig (k : string) (v : value) : action unit :=
  fun st =>
    (Return tt,
     {| config := set (config st) k v;
        configFile := configFile st;
        diskWritable := diskWritable st;
        mainWindow := mainWindow st |}).

(** [await writeFile('./config.json', JSON.stringify(config, null, 2),
    'utf-8')]: the file then holds the document of [config]; the
    indentation only adds white space to its text. *)
Definition writeConfig : action unit :=
  fun st =>
    if diskWritable st
    then (Return tt,
          {| config := config st;
             configFile := VObj (toJSON_props (config st));
             diskWritable := diskWritable st;
             mainWindow := mainWindow st |})
    else (Throw IOError, st).

(** A method call on [mainWindow], which is [null] until
    [createMainWindow] has run. *)
Definition onMainWindow (f : BrowserWindow -> BrowserWindow) : action unit :=
  fun st =>
    match mainWindow st with
    | None => (Throw TypeError, st)
    | Some w =>
        (Return tt,
         {| config := config st;
            configFile := configFile st;
            diskWritable := diskWritable st;
            mainWindow := Some (f w) |})
    end.

Definition loadURL (url : value) : action unit :=
  onMainWindow (fun w =>
    {| x := x w; y := y w; width := width w; height := height w;
       fullscreen := fullscreen w; frame := frame w;
       loadedURL := Some url;
       zoomFactor := zoomFactor w;
       insertedCSS := insertedCSS w |}).

Definition setZoomFactor (factor : value) : action unit :=
  onMainWindow (fun w =>
    {| x := x w; y := y w; width := width w; height := height w;
       fullscreen := fullscreen w; frame := frame w;
       loadedURL := loadedURL w;
       zoomFactor := Some factor;
       insertedCSS := insertedCSS w |}).

Definition insertCSS (css : string) : action unit :=
  onMainWindow (fun w =>
    {| x := x w; y := y w; width := width w; height := height w;
       fullscreen := fullscreen w; frame := frame w;
       loadedURL := loadedURL w;
       zoomFactor := zoomFactor w;
       insertedCSS := (insertedCSS w ++ [css])%list |}).

(** [data.payload.props.k]. *)
Definition propsField (data : value) (k : string) : option value :=
  match member data "payload" with
  | Some payload =>
      match member payload "props" with
      | Some props => member props k
      | None => None
      end
  | None => None
  end.

Section Actions.
Context {rt : Runtime}.

(** [actions.saveProps]. *)
Definition saveProps (data : value) : action unit :=
  name <- eval (propsField data "name") ;;
  assignConfig "name" name ;;;
  location <- eval (propsField data "location") ;;
  assignConfig "location" location ;;;
  url <- eval (propsField data "url") ;;
  assignConfig "url" url ;;;
  zoom <- eval (propsField data "zoomFactor") ;;
  assignConfig "zoomFactor" (VNum (parseFloat zoom)) ;;;
  writeConfig ;;;
  url' <- eval (propsField data "url") ;;
  loadURL url' ;;;
  zoom' <- eval (propsField data "zoomFactor") ;;
  setZoomFactor (VNum (parseFloat zoom')).

(** The earlier revision of the file ends [saveProps] with a presence
    call on [socket], inside [try]/[catch] in an asynchronous function of
    its own: whatever it does, it is caught and logged there. *)
Definition sendPresence : action unit := ret tt.

Definition saveProps_presence (data : value) : action unit :=
  saveProps data ;;; sendPresence.

(** [createMainWindow]: the window is built from the display and the
    configuration, and loads the configured page. *)
Definition createMainWindow (display : Display) : action unit :=
  fun st =>
    loadURL (nullish (get (config st) "url") (VStr "https://edugo.be"))
      {| config := config st;
         configFile := configFile st;
         diskWritable := diskWritable st;
         mainWindow :=
           Some {| x := bounds_x display;
                   y := bounds_y display;
                   width := size_width display + 1;
                   height := size_height display;
                   fullscreen := nullish (get (config st) "fullscreen") (VBool true);
                   frame := nullish (get (config st) "frame") (VBool false);
                   loadedURL := None;
                   zoomFactor := None;
                   insertedCSS := [] |} |}.

(** The handler [createMainWindow] registers for [dom-ready]. *)
Definition onDomReady : action unit :=
  insertCSS "* { cursor: none !important; }".

(** The handler [createMainWindow] registers for [ready-to-show]. *)
Definition onReadyToShow : action unit :=
  fun st => setZoomFactor (nullish (get (config st) "zoomFactor") (VNum one)) st.

(** What happens to the running program. *)
Inductive event : Type :=
| AppReady (display : Display)
| DomReady
| ReadyToShow
| SaveProps (data : value)
| DiskChange (writable : bool).

Definition handle (e : event) : action unit :=
  match e with
  | AppReady display => createMainWindow display
  | DomReady => onDomReady
  | ReadyToShow => onReadyToShow
  | SaveProps data => saveProps data
  | DiskChange writable =>
      fun st =>
        (Return tt,
         {| config := config st;
            configFile := configFile st;
            diskWritable := writable;
            mainWindow := mainWindow st |})
  end.

(** An exception of a handler ends that handler only. *)
Fixpoint run (es : list event) (st : State) : State :=
  match es with
  | [] => st
  | e :: rest => run rest (snd (handle e st))
  end.

End Actions.

(** [config = JSON.parse(await readFile('./config.json', 'utf-8'))] at
    program start, for a file that holds the object [doc]. *)
Definition startup (doc : object) (writable : bool) : State :=
  {| config := doc;
     configFile := VObj doc;
     diskWritable := writable;
     mainWindow := None |}.

(** The properties of the document in [./config.json]. *)
Definition fileProps (st : State) : object :=
  match configFile st with
  | VObj ps => ps
  | _ => []
  end.

(** The four properties [saveProps] assigns. *)
Definition savedProps : list string :=
  ["name"; "location"; "url"; "zoomFactor"]%string.

(** The field [k] is that of [doc]: in the file, in what [config] would
    be written as, and in [config]. *)
Definition fieldKept (doc : object) (k : string) (st : State) : Prop :=
  getOwn (fileProps st) k = getOwn doc k /\
  getOwn (toJSON_props (config st)) k = getOwn doc k /\
  getOwn (config st) k = getOwn doc k.

(** A statement sequence that keeps it so. *)
Definition keeps (doc : object) (k : string) {A : Type} (m : action A) : Prop :=
  forall st, fieldKept doc k st -> fieldKept doc k (snd (m st)).

End Kiosk.

(* ================================================================== *)
(** * Request signing: [signRequest] and [verifyRequest] *)
(* ================================================================== *)

Module SignatureCodec.
Import JS JSON.

(** The Ed25519 signature the two functions are after, on well-formed
    keys: the signature of a text under a private key, in base 64, and
    the check of one under a public key. [keypair sk pk] says that [sk]
    and [pk] were generated together. *)
Class Ed25519 : Type := {
  privateKey : Type;
  publicKey : Type;
  publicKey_eq_dec : forall pk pk' : publicKey, {pk = pk'} + {pk <> pk'};
  keypair : privateKey -> publicKey -> Prop;
  sign_base64 : privateKey -> string -> string;
  verify_base64 : publicKey -> string -> string -> bool
}.

(** The error [createSign] and [createVerify] raise on a name that is
    not that of a digest. *)
Inductive exception : Type :=
| ERR_CRYPTO_INVALID_DIGEST.

(** A call returns a value or raises. *)
Inductive completion (A : Type) : Type :=
| Normal (a : A)
| Abrupt (e : exception).
Arguments Normal {A} a.
Arguments Abrupt {A} e.

(** The names [createSign] and [createVerify] take are those of the
    digests of the OpenSSL the runtime is built with; these are among
    them. [Ed25519] is the name of a kind of key and of no digest, in
    any build: a key of this kind signs without a digest, through
    [crypto.sign(null, data, key)], which the code does not call. *)
Definition digests : list string :=
  ["md5"; "sha1"; "sha224"; "sha256"; "sha384"; "sha512";
   "RSA-SHA1"; "RSA-SHA256"; "RSA-SHA384"; "RSA-SHA512"]%string.

Definition isDigest (algorithm : string) : bool :=
  existsb (String.eqb algorithm) digests.

(** A [Sign] or [Verify] object: the data given to [update] so far. *)
Record Hasher : Type := { updated : string }.

Definition createSign (algorithm : string) : completion Hasher :=
  if isDigest algorithm then Normal {| updated := "" |}
  else Abrupt ERR_CRYPTO_INVALID_DIGEST.

Definition createVerify (algorithm : string) : completion Hasher :=
  if isDigest algorithm then Normal {| updated := "" |}
  else Abrupt ERR_CRYPTO_INVALID_DIGEST.

Definition update (h : Hasher) (data : string) : Hasher :=
  {| updated := (updated h ++ data)%string |}.

Definition newline : string := String (ascii_of_nat 10) "".

(** A value inside a template literal: [undefined] is written out. *)
Definition interpolate (s : option string) : string :=
  match s with
  | Some s => s
  | None => "undefined"%string
  end.

(** [x > y] for a number [x] that may be [NaN]: false on [NaN]. *)
Definition gt (x : option Z) (y : Z) : bool :=
  match x with
  | Some x => (x >? y)%Z
  | None => false
  end.

Section Codec.
Context {rt : Runtime} {E : Ed25519}.

(** The template literal both functions build, before anything else:
    [`${method}\n${path}\n${timestamp}\n${JSON.stringify(body)}`]. *)
Definition payload (method path timestamp : string) (body : value) : string :=
  (method ++ newline ++ path ++ newline ++ timestamp ++ newline
     ++ interpolate (stringify body))%string.

Definition signRequest (sk : privateKey) (method path timestamp : string)
    (body : value) : completion string :=
  let payload := payload method path timestamp body in
  match createSign "Ed25519" with
  | Normal sign =>
      let sign := update sign payload in
      Normal (sign_base64 sk (updated sign))
  | Abrupt e => Abrupt e
  end.

(** [now] is the value of [Date.now()] at the call. *)
Definition verifyRequest (now : Z) (pk : publicKey)
    (method path timestamp : string) (body : value) (signature : string)
  : completion bool :=
  let age := option_map (fun t => now - t)%Z (Date_getTime timestamp) in
  if gt age (5 * 60 * 1000) then Normal false
  else
    let payload := payload method path timestamp body in
    match createVerify "Ed25519" with
    | Normal verify =>
        let verify := update verify payload in
        Normal (verify_base64 pk (updated verify) signature)
    | Abrupt e => Abrupt e
    end.

(** Modelled from the spec: [sign] of the SignatureCodec on the
    canonical payload of a request. The repository has no code that
    makes this signature: its [signRequest] raises. *)
Definition spec_sign (sk : privateKey) (method path timestamp : string)
    (body : value) : string :=
  sign_base64 sk (payload method path timestamp body).

(** Modelled from the spec: [verify] of the SignatureCodec on the
    canonical payload of a request, with the replay window it enforces,
    [now - timestamp <= 5 minutes]. The repository has no code that
    makes this check: its [verifyRequest] raises where the signature
    is to be looked at. *)
Definition spec_verify (now : Z) (pk : publicKey)
    (method path timestamp : string) (body : value) (signature : string) : bool :=
  let age := option_map (fun t => now - t)%Z (Date_getTime timestamp) in
  if gt age (5 * 60 * 1000) then false
  else verify_base64 pk (payload method path timestamp body) signature.

End Codec.

(** The specification's [buildPayload], over the bytes of the body as they
    are transmitted: [METHOD\nPATH\nTIMESTAMP\nJSON(BODY)]. *)
Definition spec_buildPayload (method path timestamp bodyBytes : string) : string :=
  (method ++ newline ++ path ++ newline ++ timestamp ++ newline ++ bodyBytes)%string.

End SignatureCodec.

(* ================================================================== *)
(** * The controller: device registry and command queue *)
(* ================================================================== *)

(** The repository has no code for the controller: it describes it, in
    the backend specification, which gives the thresholds, the error
    codes and the fields of a record. This module is the controller as
    the specification of the repository words it. *)

Module Registry.
Import JS SignatureCodec.




(** Modelled from the spec: the stored part of a device's lifecycle state
    in the missing registry. Online, offline and stale are derived when a
    record is read; archiving is the stale reaper's, which is not modelled. *)
Inductive AdoptionState : Type :=
| Pending
| Adopted.




(** The error codes of the backend specification's table. *)
Inductive ErrorCode : Type :=
| INVALID_REQUEST
| UNAUTHORIZED
| FORBIDDEN
| DEVICE_NOT_FOUND
| ALREADY_ADOPTED.

(** The outcome of a call: its answer, or an error code. *)
Inductive result (A : Type) : Type :=
| Ok (a : A)
| Err (code : ErrorCode).
Arguments Ok {A} a.
Arguments Err {A} code.

(** Modelled from the spec: the actions of a command of the missing
    command queue. *)
Inductive CommandAction : Type :=
| refresh
| navigate
| updateConfig
| screenshot
| reboot
| identify.

(** Modelled from the spec: a command of the missing command queue, owned
    by one device; [acknowledgedAt] is [None] until the device
    acknowledges it. *)
Record Command : Type := {
  commandId : nat;
  owner : nat;
  action : CommandAction;
  commandPayload : value;
  commandCreatedAt : Z;
  acknowledgedAt : option Z
}.

(** Modelled from the spec: a signed request as the missing registry
    receives it; the [X-Timestamp] and [X-Signature] headers may be
    absent. *)
Record SignedRequest : Type := {
  method : string;
  path : string;
  timestamp : option string;
  body : value;
  signature : option string
}.

Section Controller.
Context {rt : Runtime} {E : Ed25519}.

(** Modelled from the spec: a device record of the missing registry. The
    identifier is the server's; [serial] and the system snapshot (which
    carries the MAC address) are what the device reports;
    [configChanged] is the mark that the next poll reports and clears. *)
Record Device : Type := {
  deviceId : nat;
  serial : string;
  devicePublicKey : publicKey;
  deviceConfig : value;
  adoption : AdoptionState;
  createdAt : Z;
  adoptedAt : option Z;
  lastSeenAt : Z;
  lastConfigChangeAt : option Z;
  system : value;
  stats : value;
  configChanged : bool
}.

(** Modelled from the spec: the state of the missing controller, its
    device records and its commands in insertion order, with the next
    identifier of each kind. *)
Record Controller : Type := {
  devices : list Device;
  nextDeviceId : nat;
  commands : list Command;
  nextCommandId : nat
}.

(** The controller with no record and no command. *)
Definition empty : Controller :=
  {| devices := []; nextDeviceId := 0; commands := []; nextCommandId := 0 |}.

(** The record holds the public key [pk]. *)
Definition hasKey (pk : publicKey) (d : Device) : bool :=
  if publicKey_eq_dec (devicePublicKey d) pk then true else false.

(** Modelled from the spec: the look-up of a record of the missing
    registry by public key, which [announce] uses. *)
Definition findByPublicKey (pk : publicKey) (ds : list Device) : option Device :=
  find (hasKey pk) ds.

(** Modelled from the spec: the look-up of a record of the missing
    registry by device identifier, which the other calls use. *)
Definition findById (i : nat) (ds : list Device) : option Device :=
  find (fun d => Nat.eqb (deviceId d) i) ds.

(** The records with the record of identifier [i] replaced by its image
    under [f]. *)
Definition updateDevice (i : nat) (f : Device -> Device) (ds : list Device)
  : list Device :=
  map (fun d => if Nat.eqb (deviceId d) i then f d else d) ds.

(** The controller with its records replaced. *)
Definition withDevices (ds : list Device) (c : Controller) : Controller :=
  {| devices := ds;
     nextDeviceId := nextDeviceId c;
     commands := commands c;
     nextCommandId := nextCommandId c |}.

(** The record with [lastSeenAt] set. *)
Definition seenAt (now : Z) (d : Device) : Device :=
  {| deviceId := deviceId d; serial := serial d;
     devicePublicKey := devicePublicKey d; deviceConfig := deviceConfig d;
     adoption := adoption d; createdAt := createdAt d;
     adoptedAt := adoptedAt d;
     lastSeenAt := now;
     lastConfigChangeAt := lastConfigChangeAt d;
     system := system d; stats := stats d;
     configChanged := configChanged d |}.

(** The record after a poll: [lastSeenAt] set, [configChanged] cleared. *)
Definition polledAt (now : Z) (d : Device) : Device :=
  {| deviceId := deviceId d; serial := serial d;
     devicePublicKey := devicePublicKey d; deviceConfig := deviceConfig d;
     adoption := adoption d; createdAt := createdAt d;
     adoptedAt := adoptedAt d;
     lastSeenAt := now;
     lastConfigChangeAt := lastConfigChangeAt d;
     system := system d; stats := stats d;
     configChanged := false |}.

(** The record after a heartbeat: [lastSeenAt] and the statistics set. *)
Definition heardAt (now : Z) (report : value) (d : Device) : Device :=
  {| deviceId := deviceId d; serial := serial d;
     devicePublicKey := devicePublicKey d; deviceConfig := deviceConfig d;
     adoption := adoption d; createdAt := createdAt d;
     adoptedAt := adoptedAt d;
     lastSeenAt := now;
     lastConfigChangeAt := lastConfigChangeAt d;
     system := system d; stats := report;
     configChanged := configChanged d |}.

(** The record after its adoption with the configuration [cfg]. *)
Definition adoptedWith (now : Z) (cfg : value) (d : Device) : Device :=
  {| deviceId := deviceId d; serial := serial d;
     devicePublicKey := devicePublicKey d;
     deviceConfig := cfg;
     adoption := Adopted;
     createdAt := createdAt d;
     adoptedAt := Some now;
     lastSeenAt := lastSeenAt d;
     lastConfigChangeAt := Some now;
     system := system d; stats := stats d;
     configChanged := true |}.

(** Modelled from the spec: the answers of [announce] in the missing
    registry, [{status: pending, deviceId}] and
    [{status: adopted, deviceId, config}]. *)
Inductive AnnounceResponse : Type :=
| AnnouncePending (id : nat)
| AnnounceAdopted (id : nat) (config : value).

(** Modelled from the spec: the second half of [announce] in the missing
    registry, what it writes and answers once the public key has been
    looked up. With no record found it creates a pending record under a
    fresh identifier; an adopted record is reported with its
    configuration and its [lastSeenAt] refreshed; a pending record is
    reported again, so that one key never has two records. *)
Definition announceWrite (now : Z) (reportedSerial : string) (pk : publicKey)
    (snapshot cfg : value) (found : option Device) (c : Controller)
  : AnnounceResponse * Controller :=
  match found with
  | None =>
      let d := {| deviceId := nextDeviceId c;
                  serial := reportedSerial;
                  devicePublicKey := pk;
                  deviceConfig := cfg;
                  adoption := Pending;
                  createdAt := now;
                  adoptedAt := None;
                  lastSeenAt := now;
                  lastConfigChangeAt := None;
                  system := snapshot;
                  stats := VUndefined;
                  configChanged := false |} in
      (AnnouncePending (deviceId d),
       {| devices := (devices c ++ [d])%list;
          nextDeviceId := S (nextDeviceId c);
          commands := commands c;
          nextCommandId := nextCommandId c |})
  | Some d =>
      match adoption d with
      | Pending => (AnnouncePending (deviceId d), c)
      | Adopted =>
          (AnnounceAdopted (deviceId d) (deviceConfig d),
           withDevices (updateDevice (deviceId d) (seenAt now) (devices c)) c)
      end
  end.

(** Modelled from the spec: [announce] of the missing registry, as one
    step: it looks the record up by public key, then writes and answers
    as [announceWrite] says. *)
Definition announce (now : Z) (reportedSerial : string) (pk : publicKey)
    (snapshot cfg : value) (c : Controller) : AnnounceResponse * Controller :=
  announceWrite now reportedSerial pk snapshot cfg
                (findByPublicKey pk (devices c)) c.

(** Modelled from the spec: [adopt] of the missing registry. It fails with
    [AlreadyAdopted] on a record that is not pending; on a pending one it
    sets the configuration and [adoptedAt], makes the record adopted and
    marks [configChanged] for the next poll. *)
Definition adopt (now : Z) (id : nat) (cfg : value) (c : Controller)
  : result unit * Controller :=
  match findById id (devices c) with
  | None => (Err DEVICE_NOT_FOUND, c)
  | Some d =>
      match adoption d with
      | Pending =>
          (Ok tt, withDevices (updateDevice id (adoptedWith now cfg) (devices c)) c)
      | Adopted => (Err ALREADY_ADOPTED, c)
      end
  end.

(** Modelled from the spec: the check the missing registry makes of a
    signed request, [spec_verify] under the record's stored public key;
    a request without signature or time stamp is not authentic. *)
Definition authentic (now : Z) (d : Device) (req : SignedRequest) : bool :=
  match timestamp req, signature req with
  | Some t, Some sig =>
      spec_verify now (devicePublicKey d) (method req) (path req) t (body req) sig
  | _, _ => false
  end.

(** The command is owned by the device [id] and not acknowledged. *)
Definition pendingOf (id : nat) (cmd : Command) : bool :=
  Nat.eqb (owner cmd) id &&
  match acknowledgedAt cmd with
  | None => true
  | Some _ => false
  end.

(** Modelled from the spec: the pending commands of a device in the
    missing command queue, oldest first. *)
Definition listPending (id : nat) (c : Controller) : list Command :=
  filter (pendingOf id) (commands c).

(** Modelled from the spec: the answer of [poll] in the missing
    registry. *)
Record PollResponse : Type := {
  pollConfigChanged : bool;
  pollConfig : value;
  pendingCommands : list Command
}.

(** Modelled from the spec: [poll] of the missing registry. [Unauthorized]
    on a request that is not authentic, [Forbidden] on a device not yet
    adopted; otherwise it sets [lastSeenAt] and answers whether the
    configuration changed since the last poll, with the pending
    commands. *)
Definition poll (now : Z) (id : nat) (req : SignedRequest) (c : Controller)
  : result PollResponse * Controller :=
  match findById id (devices c) with
  | None => (Err DEVICE_NOT_FOUND, c)
  | Some d =>
      if negb (authentic now d req) then (Err UNAUTHORIZED, c)
      else
        match adoption d with
        | Pending => (Err FORBIDDEN, c)
        | Adopted =>
            (Ok {| pollConfigChanged := configChanged d;
                   pollConfig := deviceConfig d;
                   pendingCommands := listPending id c |},
             withDevices (updateDevice id (polledAt now) (devices c)) c)
        end
  end.

(** Modelled from the spec: [heartbeat] of the missing registry, with the
    authentication of [poll]; it sets [lastSeenAt] and the stored
    statistics. *)
Definition heartbeat (now : Z) (id : nat) (req : SignedRequest) (report : value)
    (c : Controller) : result unit * Controller :=
  match findById id (devices c) with
  | None => (Err DEVICE_NOT_FOUND, c)
  | Some d =>
      if negb (authentic now d req) then (Err UNAUTHORIZED, c)
      else
        match adoption d with
        | Pending => (Err FORBIDDEN, c)
        | Adopted =>
            (Ok tt, withDevices (updateDevice id (heardAt now report) (devices c)) c)
        end
  end.

(** Modelled from the spec: [enqueue] of the missing command queue. *)
Definition enqueue (now : Z) (id : nat) (a : CommandAction) (p : value)
    (c : Controller) : nat * Controller :=
  (nextCommandId c,
   {| devices := devices c;
      nextDeviceId := nextDeviceId c;
      commands := (commands c ++
                   [{| commandId := nextCommandId c;
                       owner := id;
                       action := a;
                       commandPayload := p;
                       commandCreatedAt := now;
                       acknowledgedAt := None |}])%list;
      nextCommandId := S (nextCommandId c) |}).

(** The command with [acknowledgedAt] set. *)
Definition acknowledged (now : Z) (cmd : Command) : Command :=
  {| commandId := commandId cmd;
     owner := owner cmd;
     action := action cmd;
     commandPayload := commandPayload cmd;
     commandCreatedAt := commandCreatedAt cmd;
     acknowledgedAt := Some now |}.

(** The command is the command [cid] of the device [id], and pending. *)
Definition isPending (id cid : nat) (cmd : Command) : bool :=
  Nat.eqb (commandId cmd) cid && Nat.eqb (owner cmd) id &&
  match acknowledgedAt cmd with
  | None => true
  | Some _ => false
  end.

(** Modelled from the spec: [acknowledge] of the missing command queue.
    It takes the command out of the device's pending queue by setting its
    [acknowledgedAt]; on a command already acknowledged, or unknown, it
    does nothing and still succeeds. *)
Definition acknowledge (now : Z) (id cid : nat) (c : Controller)
  : result unit * Controller :=
  (Ok tt,
   {| devices := devices c;
      nextDeviceId := nextDeviceId c;
      commands := map (fun cmd => if isPending id cid cmd
                                  then acknowledged now cmd else cmd)
                      (commands c);
      nextCommandId := nextCommandId c |}).


(** A call on the controller. The registry runs the calls on a record one
    at a time, so calls made concurrently take effect in some order. *)
Inductive call : Type :=
| Announce (reportedSerial : string) (pk : publicKey) (snapshot cfg : value)
| Adopt (id : nat) (cfg : value)
| Poll (id : nat) (req : SignedRequest)
| Heartbeat (id : nat) (req : SignedRequest) (report : value)
| Enqueue (id : nat) (a : CommandAction) (p : value)
| Acknowledge (id cid : nat).

(** The effect of a call that takes effect at time [now]. *)
Definition exec (tc : Z * call) (c : Controller) : Controller :=
  let now := fst tc in
  match snd tc with
  | Announce s pk snapshot cfg => snd (announce now s pk snapshot cfg c)
  | Adopt id cfg => snd (adopt now id cfg c)
  | Poll id req => snd (poll now id req c)
  | Heartbeat id req report => snd (heartbeat now id req report c)
  | Enqueue id a p => snd (enqueue now id a p c)
  | Acknowledge id cid => snd (acknowledge now id cid c)
  end.

(** The calls of a schedule, in the order in which they take effect. *)
Definition execAll (schedule : list (Z * call)) (c : Controller) : Controller :=
  fold_left (fun c tc => exec tc c) schedule c.

Inductive reachable : Controller -> Prop :=
| reachable_empty : reachable empty
| reachable_exec : forall c tc, reachable c -> reachable (exec tc c).

(** The records that hold the public key [pk]. *)
Definition recordsOf (pk : publicKey) (c : Controller) : list Device :=
  filter (hasKey pk) (devices c).

(** Every identifier in use is below the next one, and no two records
    share an identifier or a public key. *)
Definition wellFormed (c : Controller) : Prop :=
  (forall d, In d (devices c) -> deviceId d < nextDeviceId c) /\
  NoDup (map deviceId (devices c)) /\
  NoDup (map devicePublicKey (devices c)).

(** The record keeps its identifier and its public key under [f]. *)
Definition keepsIdentity (f : Device -> Device) : Prop :=
  forall d, deviceId (f d) = deviceId d /\ devicePublicKey (f d) = devicePublicKey d.

(** ** Concurrent announces

    Modelled from the spec: the read-modify-write sequence of [announce]
    in the missing registry, run under the lock of its public key. A call
    takes the lock, looks the key up, writes and answers, and gives the
    lock back; between any two of these steps other calls may move. *)
Inductive Phase : Type :=
| Arrived
| Locked
| LookedUp (found : option Device)
| Written (answer : AnnounceResponse)
| Returned (answer : AnnounceResponse).

Record AnnounceCall : Type := {
  callTime : Z;
  callSerial : string;
  callKey : publicKey;
  callSnapshot : value;
  callConfig : value;
  phase : Phase
}.

Definition inPhase (p : Phase) (t : AnnounceCall) : AnnounceCall :=
  {| callTime := callTime t;
     callSerial := callSerial t;
     callKey := callKey t;
     callSnapshot := callSnapshot t;
     callConfig := callConfig t;
     phase := p |}.

Definition holdsLock (t : AnnounceCall) : bool :=
  match phase t with
  | Locked | LookedUp _ | Written _ => true
  | Arrived | Returned _ => false
  end.

(** The keys whose lock is held. *)
Definition lockedKeys (pool : list AnnounceCall) : list publicKey :=
  map callKey (filter holdsLock pool).

Definition answerId (a : AnnounceResponse) : nat :=
  match a with
  | AnnouncePending id => id
  | AnnounceAdopted id _ => id
  end.

Definition isAnnounce (k : call) : bool :=
  match k with
  | Announce _ _ _ _ => true
  | _ => false
  end.

(** Modelled from the spec: the missing controller at work, its state and
    the announces in flight. *)
Record System : Type := {
  controller : Controller;
  inFlight : list AnnounceCall
}.

(** Modelled from the spec: one step of the missing controller. An
    announce arrives, or an announce in flight takes its next step (the
    lock only when no call holds it), or another call on a device takes
    effect. *)
Inductive step : System -> System -> Prop :=
| step_arrive : forall c pool t,
    phase t = Arrived ->
    step {| controller := c; inFlight := pool |}
         {| controller := c; inFlight := (pool ++ [t])%list |}
| step_lock : forall c before t after,
    phase t = Arrived ->
    ~ In (callKey t) (lockedKeys (before ++ t :: after)) ->
    step {| controller := c; inFlight := (before ++ t :: after)%list |}
         {| controller := c;
            inFlight := (before ++ inPhase Locked t :: after)%list |}
| step_lookUp : forall c before t after,
    phase t = Locked ->
    step {| controller := c; inFlight := (before ++ t :: after)%list |}
         {| controller := c;
            inFlight :=
              (before
               ++ inPhase (LookedUp (findByPublicKey (callKey t) (devices c))) t
               :: after)%list |}
| step_write : forall c before t after found,
    phase t = LookedUp found ->
    let w := announceWrite (callTime t) (callSerial t) (callKey t)
                           (callSnapshot t) (callConfig t) found c in
    step {| controller := c; inFlight := (before ++ t :: after)%list |}
         {| controller := snd w;
            inFlight := (before ++ inPhase (Written (fst w)) t :: after)%list |}
| step_unlock : forall c before t after answer,
    phase t = Written answer ->
    step {| controller := c; inFlight := (before ++ t :: after)%list |}
         {| controller := c;
            inFlight := (before ++ inPhase (Returned answer) t :: after)%list |}
| step_call : forall c pool tc,
    isAnnounce (snd tc) = false ->
    step {| controller := c; inFlight := pool |}
         {| controller := exec tc c; inFlight := pool |}.

Inductive running : System -> Prop :=
| running_start : running {| controller := empty; inFlight := [] |}
| running_step : forall s s', running s -> step s s' -> running s'.

(** The public key and the identifier of every record. *)
Definition identities (c : Controller) : list (publicKey * nat) :=
  map (fun d => (devicePublicKey d, deviceId d)) (devices c).

(** What a call in flight knows stays true of the registry: a key it
    found no record of has none, and a record it found or answered with
    is there. *)
Definition phaseOk (c : Controller) (t : AnnounceCall) : Prop :=
  match phase t with
  | Arrived | Locked => True
  | LookedUp None => ~ In (callKey t) (map fst (identities c))
  | LookedUp (Some d) => In (callKey t, deviceId d) (identities c)
  | Written a | Returned a => In (callKey t, answerId a) (identities c)
  end.

Definition sound (s : System) : Prop :=
  wellFormed (controller s) /\
  NoDup (lockedKeys (inFlight s)) /\
  forall t, In t (inFlight s) -> phaseOk (controller s) t.

End Controller.

End Registry.

(* ================================================================== *)
(** * A runtime and a signature scheme to compute examples with *)
(* ================================================================== *)

Module Reference.
Import JS JSON SignatureCodec.

(** The integer a number is, when it is one. *)
Definition integerOf (x : float) : option Z :=
  match Prim2SF x with
  | S754_zero _ => Some 0%Z
  | S754_finite negative m e =>
      let sign := if negative then (-1)%Z else 1%Z in
      if (0 <=? e)%Z then Some (sign * (Z.pos m * 2 ^ e))%Z
      else if (Z.pos m mod 2 ^ (- e) =? 0)%Z
           then Some (sign * (Z.pos m / 2 ^ (- e)))%Z
           else None
  | S754_infinity _ => None
  | S754_nan => None
  end.

(** [Number::toString] on the integers below [10^21], which it writes in
    decimal digits. The examples print no other number, and this function
    is not the runtime's on those. *)
Definition integer_toString (x : float) : string :=
  match integerOf x with
  | Some z =>
      if (Z.abs z <? 10 ^ 21)%Z
      then NilZero.string_of_int (Z.to_int z)
      else "NaN"%string
  | None => "NaN"%string
  end.

(** [parseFloat] on a number, which it gives back, and on a string that
    starts with an integer literal of JSON. The examples use no other
    argument, and this function is not the runtime's on those. *)
Definition integer_parseFloat (v : value) : float :=
  match v with
  | VNum x => x
  | VStr s =>
      match parseNumber s with
      | Some (x, _) => x
      | None => nan
      end
  | _ => nan
  end.

Definition digitAt (s : string) (i : nat) : option Z :=
  match String.get i s with
  | Some c => if isDigit c then Some (Z.of_nat (nat_of_ascii c - 48)) else None
  | None => None
  end.

Fixpoint numberAt (s : string) (i len : nat) (acc : Z) : option Z :=
  match len with
  | O => Some acc
  | S len' =>
      match digitAt s i with
      | Some d => numberAt s (S i) len' (10 * acc + d)
      | None => None
      end
  end.

Definition charAt (s : string) (i : nat) (c : ascii) : bool :=
  match String.get i s with
  | Some c' => Ascii.eqb c c'
  | None => false
  end.

Definition isLeap (year : Z) : bool :=
  ((year mod 4 =? 0) && negb (year mod 100 =? 0) || (year mod 400 =? 0))%Z.

Definition daysInMonth (year month : Z) : Z :=
  if (month =? 2)%Z then (if isLeap year then 29 else 28)%Z
  else if ((month =? 4) || (month =? 6) || (month =? 9) || (month =? 11))%Z
       then 30%Z else 31%Z.

(** The days from 1970-01-01 to a date of the Gregorian calendar. *)
Definition daysFromCivil (year month day : Z) : Z :=
  let y := (if month <=? 2 then year - 1 else year)%Z in
  let era := (y / 400)%Z in
  let yoe := (y - era * 400)%Z in
  let mp := (if month <=? 2 then month + 9 else month - 3)%Z in
  let doy := ((153 * mp + 2) / 5 + day - 1)%Z in
  let doe := (yoe * 365 + yoe / 4 - yoe / 100 + doy)%Z in
  (era * 146097 + doe - 719468)%Z.

(** [new Date(s).getTime()] on a time stamp in the form [toISOString]
    writes, [YYYY-MM-DDTHH:mm:ss.sssZ]. The examples use no other form,
    and this function is not the runtime's on those. *)
Definition iso_getTime (s : string) : option Z :=
  if Nat.eqb (String.length s) 24
     && charAt s 4 "-" && charAt s 7 "-" && charAt s 10 "T"
     && charAt s 13 ":" && charAt s 16 ":" && charAt s 19 "." && charAt s 23 "Z"
  then
    match numberAt s 0 4 0, numberAt s 5 2 0, numberAt s 8 2 0,
          numberAt s 11 2 0, numberAt s 14 2 0, numberAt s 17 2 0,
          numberAt s 20 3 0 with
    | Some year, Some month, Some day, Some h, Some m, Some sec, Some ms =>
        if ((1 <=? month) && (month <=? 12) && (1 <=? day)
            && (day <=? daysInMonth year month)
            && (h <=? 23) && (m <=? 59) && (sec <=? 59))%Z
        then Some ((((daysFromCivil year month day * 24 + h) * 60 + m) * 60 + sec)
                   * 1000 + ms)%Z
        else None
    | _, _, _, _, _, _, _ => None
    end
  else None.

#[export] Instance runtime : Runtime := {
  Number_toString := integer_toString;
  parseFloat := integer_parseFloat;
  Date_getTime := iso_getTime
}.

(** A stand-in for Ed25519 with no security at all: the public key of a
    private key is that key, and a signature is the key followed by the
    data, so that a signature verifies under the key of its pair and
    under no other. *)
#[export] Instance toy : Ed25519 := {
  privateKey := ascii;
  publicKey := ascii;
  publicKey_eq_dec := ascii_dec;
  keypair := fun sk pk => pk = sk;
  sign_base64 := fun sk data => String sk data;
  verify_base64 := fun pk data sig => String.eqb sig (String pk data)
}.

(** The keys of the stand-in. *)
Definition secret (c : ascii) : @privateKey toy := c.
Definition key (c : ascii) : @publicKey toy := c.

(** The heartbeat request of the backend specification: its body as it is
    written there, and the value this text is parsed to. *)
Definition heartbeatWire : string :=
  text "{ 'uptime': 86400, 'ip': '192.168.1.100' }".

Definition heartbeatBody : value :=
  VObj [("uptime"%string, VNum 86400%float);
        ("ip"%string, VStr "192.168.1.100")].

Definition heartbeatPath : string := "/api/v1/devices/7/heartbeat".

Definition heartbeatTime : string := "2026-01-13T12:00:00.000Z".

(** A [config.json] as the deploy script writes it; the zoom factor is
    the number 1.6. *)
Definition deployedConfig : object :=
  [("name"%string, VStr "lobby-display-01");
   ("location"%string, VStr "Main Building Lobby");
   ("url"%string, VStr "https://example.com/display");
   ("fullscreen"%string, VBool true);
   ("frame"%string, VBool false);
   ("zoomFactor"%string, VNum 0x1.999999999999ap+0%float);
   ("controller"%string, VStr "https://controller.example.com");
   ("refreshCronExpression"%string, VStr "0 0 * * * *")].

Definition fullHD : Kiosk.Display :=
  {| Kiosk.bounds_x := 0; Kiosk.bounds_y := 0;
     Kiosk.size_width := 1920; Kiosk.size_height := 1080 |}.

(** The argument of a [saveProps] action. *)
Definition newProps : value :=
  VObj [("payload"%string,
         VObj [("props"%string,
                VObj [("name"%string, VStr "lobby-1");
                      ("location"%string, VStr "Hall");
                      ("url"%string, VStr "https://x");
                      ("zoomFactor"%string, VStr "2")])])].

(** The scenario of the specification: a device with serial number [A1]
    announces itself under the public key [k], and the administrator
    adopts it. *)
Definition lobbyConfig : value :=
  VObj [("name"%string, VStr "lobby-1"); ("url"%string, VStr "https://x")].

Definition announced : Registry.Controller :=
  Registry.exec (1768305000000%Z,
                 Registry.Announce "A1" (key "k") VNull VNull)
                Registry.empty.

Definition adoptedOnce : Registry.Controller :=
  Registry.exec (1768305500000%Z, Registry.Adopt 0 lobbyConfig) announced.



(** The adopted device with a [refresh] command queued. *)
Definition queued : Registry.Controller :=
  Registry.exec (1768305550000%Z, Registry.Enqueue 0 Registry.refresh (VObj []))
                adoptedOnce.

(** Two announces of the new key [j] in flight at once. *)
Definition firstCall : Registry.AnnounceCall :=
  {| Registry.callTime := 1768305600000%Z;
     Registry.callSerial := "B2";
     Registry.callKey := key "j";
     Registry.callSnapshot := VNull;
     Registry.callConfig := VNull;
     Registry.phase := Registry.Arrived |}.

Definition secondCall : Registry.AnnounceCall :=
  {| Registry.callTime := 1768305600001%Z;
     Registry.callSerial := "B2";
     Registry.callKey := key "j";
     Registry.callSnapshot := VNull;
     Registry.callConfig := VNull;
     Registry.phase := Registry.Arrived |}.

(** The registry once the first of them has written. *)
Definition afterFirst : Registry.Controller :=
  snd (Registry.announceWrite 1768305600000%Z "B2" (key "j") VNull VNull None
         Registry.empty).

(** The controller once both have returned. *)
Definition raced : Registry.System :=
  {| Registry.controller := afterFirst;
     Registry.inFlight :=
       [Registry.inPhase (Registry.Returned (Registry.AnnouncePending 0)) firstCall;
        Registry.inPhase (Registry.Returned (Registry.AnnouncePending 0)) secondCall] |}.

End Reference.


(* ================================================================== *)
(** * A saved configuration and the next start of the program *)
(* ================================================================== *)

Module Session.
Import JS JSON Kiosk.

(** The configuration after the four assignments of [saveProps]. *)
Definition assigned (name location url : value) (zoom : float) (o : object)
  : object :=
  set (set (set (set o "name" name) "location" location) "url" url)
      "zoomFactor" (VNum zoom).


End Session.

(* ================================================================== *)
(** * Calls of [saveProps] that overlap *)
(* ================================================================== *)

Module Overlap.
Import JS JSON Kiosk.

(** What [config.json] holds: a document, or, after two [writeFile] that
    were under way at once, a text nothing is known of: it may be that
    of either call, and it may be no JSON at all. *)
Inductive File : Type :=
| Holds (document : value)
| Unknown.

(** A call of [saveProps] that has reached its [await]: its argument,
    what it gave to [writeFile] (the text of [config] at that moment,
    held as the document it denotes), and whether no other call has
    been waiting while it was. *)
Record Call : Type := {
  message : value;
  document : value;
  alone : bool
}.

(** The program, the file, and the calls whose [writeFile] has not ended
    yet, in the order they were made in. The program is followed in
    [config] and in the window; what the file holds is followed in
    [file] and not in [configFile]. *)
Record System : Type := {
  kiosk : State;
  file : File;
  awaiting : list Call
}.

(** [saveProps] is called, and the [writeFile] of the [n]-th call that
    is waiting ends. *)
Inductive event : Type :=
| Invoke (data : value)
| Written (n : nat).

(** The [await] of [writeFile] ends: the promise is fulfilled, or it is
    rejected when the file cannot be written. *)
Definition awaited : action unit :=
  fun st =>
    if diskWritable st then (Return tt, st) else (Throw IOError, st).

(** Another call is made while this one waits. *)
Definition overlapped (call : Call) : Call :=
  {| message := message call; document := document call; alone := false |}.

Section Calls.
Context {rt : Runtime}.

(** [saveProps] up to its [await]: the four assignments and the
    argument of [writeFile]. *)
Definition saveProps_begin (data : value) : action value :=
  name <- eval (propsField data "name") ;;
  assignConfig "name" name ;;;
  location <- eval (propsField data "location") ;;
  assignConfig "location" location ;;;
  url <- eval (propsField data "url") ;;
  assignConfig "url" url ;;;
  zoom <- eval (propsField data "zoomFactor") ;;
  assignConfig "zoomFactor" (VNum (parseFloat zoom)) ;;;
  fun st => (Return (VObj (toJSON_props (config st))), st).

(** [saveProps] from its [await] on. *)
Definition saveProps_resume (data : value) : action unit :=
  awaited ;;;
  url' <- eval (propsField data "url") ;;
  loadURL url' ;;;
  zoom' <- eval (propsField data "zoomFactor") ;;
  setZoomFactor (VNum (parseFloat zoom')).

(** One event; an exception ends the call it is raised in, and no other
    call. A [writeFile] that ends leaves its document in the file when
    the call was alone, and a file that cannot be written as it was. *)
Definition handle (e : event) (s : System) : System :=
  match e with
  | Invoke data =>
      match saveProps_begin data (kiosk s) with
      | (Return document, st) =>
          {| kiosk := st;
             file := file s;
             awaiting :=
               (map overlapped (awaiting s)
                ++ [{| message := data;
                       document := document;
                       alone := match awaiting s with
                                | [] => true
                                | _ :: _ => false
                                end |}])%list |}
      | (Throw _, st) =>
          {| kiosk := st; file := file s; awaiting := awaiting s |}
      end
  | Written n =>
      match nth_error (awaiting s) n with
      | Some call =>
          {| kiosk := snd (saveProps_resume (message call) (kiosk s));
             file := if diskWritable (kiosk s)
                     then if alone call then Holds (document call) else Unknown
                     else file s;
             awaiting := (firstn n (awaiting s) ++ skipn (S n) (awaiting s))%list |}
      | None => s
      end
  end.

Fixpoint run (es : list event) (s : System) : System :=
  match es with
  | [] => s
  | e :: rest => run rest (handle e s)
  end.

End Calls.

(** The program with no call waiting. *)
Definition idle (st : State) : System :=
  {| kiosk := st; file := Holds (configFile st); awaiting := [] |}.

End Overlap.

(* ================================================================== *)
(** * The payload as lines *)
(* ================================================================== *)

Module Framing.

(** Whether a text has a line feed in it. *)
Fixpoint hasNewline (s : string) : bool :=
  match s with
  | EmptyString => false
  | String c rest => Nat.eqb (nat_of_ascii c) 10 || hasNewline rest
  end.

End Framing.

(* ================================================================== *)
(** * The information overlay: [getSystemInfo], [showInfoWindow] and the
      page of the overlay *)
(* ================================================================== *)

Module Overlay.
Import JS JSON.

(** [v === true]. *)
Definition isTrue (v : value) : bool :=
  match v with
  | VBool true => true
  | _ => false
  end.

(** [elems.find(predicate)]: the first element the predicate holds of,
    [undefined] when there is none; [None] when the predicate throws on
    an element before that. *)
Fixpoint find (predicate : value -> option bool) (elems : list value)
  : option value :=
  match elems with
  | [] => Some VUndefined
  | e :: rest =>
      match predicate e with
      | Some true => Some e
      | Some false => find predicate rest
      | None => None
      end
  end.

(** The callback [getSystemInfo] gives to [find]:
    [iface.default === true]. *)
Definition isDefault (iface : value) : option bool :=
  option_map isTrue (member iface "default").

(** [delete o.k]. *)
Definition delete (o : object) (k : string) : object :=
  filter (fun kv => negb (String.eqb k (fst kv))) o.

(** [getSystemInfo], as a function of the value [sysInfo.get] resolves
    to; [None] is a [TypeError]. A value that is no object has no
    [networkInterfaces], and only an array has [find]. *)
Definition getSystemInfo (si : value) : option value :=
  match member si "networkInterfaces" with
  | Some (VArr ifaces) =>
      match find isDefault ifaces, si with
      | Some found, VObj props =>
          let props := set props "defaultNetworkInterface" found in
          let props := delete props "networkInterfaces" in
          match member (get props "osInfo") "serial" with
          | Some serial =>
              Some (VObj [("serial"%string, serial);
                          ("system"%string, VObj props)])
          | None => None
          end
      | _, _ => None
      end
  | _ => None
  end.

(** What [showInfoWindow] sends on the channel [setInfoText]:
    [JSON.stringify({ config: config, device: systemInfo }, null, 2)],
    held as the document this text denotes. *)
Definition infoText (config : object) (systemInfo : value) : value :=
  VObj (toJSON_props [("config"%string, VObj config);
                      ("device"%string, systemInfo)]).

(** [v?.k]. *)
Definition optionalMember (v : value) (k : string) : value :=
  match member v k with
  | Some x => x
  | None => VUndefined
  end.

(** [ToBoolean]. *)
Definition truthy (v : value) : bool :=
  match v with
  | VUndefined | VNull => false
  | VBool b => b
  | VNum x => negb (is_zero x || is_nan x)
  | VStr s => negb (String.eqb s "")
  | VArr _ | VObj _ => true
  end.

(** [a || b]. *)
Definition orElse (a b : value) : value :=
  if truthy a then a else b.

(** The two elements of the page: the values assigned to the [innerText]
    of [ipAddress] and of [info]. *)
Record InfoPage : Type := {
  ipAddress : value;
  info : value
}.

(** The callback the page registers for [setInfoText], on the document
    [JSON.parse] reads out of the message; [None] is a [TypeError]. *)
Definition onSetInfoText (data : value) : option InfoPage :=
  match member data "device" with
  | Some device =>
      let ip :=
        orElse (optionalMember
                  (optionalMember (optionalMember device "system")
                     "defaultNetworkInterface")
                  "ip4")
               (VStr "No IP") in
      Some {| ipAddress := ip; info := data |}
  | None => None
  end.

(** The overlay window: whether it is shown, the messages sent to its
    page, and the times at which the pending timers are due. *)
Record InfoWindow : Type := {
  visible : bool;
  sent : list value;
  hideTimers : list Z
}.

(** [new BrowserWindow({ ..., show: false, ... })] in [createInfoWindow]. *)
Definition createInfoWindow : InfoWindow :=
  {| visible := false; sent := []; hideTimers := [] |}.

(** [showInfoWindow] at the time [now], on a window that exists. *)
Definition showInfoWindow (config : object) (systemInfo : value) (now : Z)
    (w : InfoWindow) : InfoWindow :=
  {| visible := true;
     sent := (sent w ++ [infoText config systemInfo])%list;
     hideTimers := (hideTimers w ++ [(now + 10000)%Z])%list |}.

(** The callback of the timer that is due first runs:
    [infoWindow.hide()]. Timers of one delay run in the order they were
    set in. *)
Definition onTimeout (w : InfoWindow) : InfoWindow :=
  {| visible := false;
     sent := sent w;
     hideTimers := tl (hideTimers w) |}.

(** The life of the overlay, with the time on the clock: it is
    created; [showInfoWindow] is called, by the [showInfo] action or at
    [ready-to-show], with [config] as it is then; a timer runs out, which
    it does only while one is pending and not before it is due. *)
Inductive trace (systemInfo : value) : Z -> InfoWindow -> Prop :=
| trace_created : forall now, trace systemInfo now createInfoWindow
| trace_show : forall clock now config w,
    trace systemInfo clock w ->
    (clock <= now)%Z ->
    trace systemInfo now (showInfoWindow config systemInfo now w)
| trace_timeout : forall clock now due rest w,
    trace systemInfo clock w ->
    hideTimers w = due :: rest ->
    (clock <= now)%Z -> (due <= now)%Z ->
    trace systemInfo now (onTimeout w).

End Overlay.

(* ================================================================== *)
(** * The installer: the daily update job and the start of the kiosk at
      login *)
(* ================================================================== *)

Module Deploy.
Import SignatureCodec.

(** Whether a line of the text has the pattern in it: the exit status of
    [grep -F pattern] and of [grep -q pattern] on the text, for a pattern
    of ordinary characters with no line feed. *)
Fixpoint contains (pattern text : string) : bool :=
  match text with
  | EmptyString => prefix pattern text
  | String _ rest => prefix pattern text || contains pattern rest
  end.

(** [CRON_CMD]. *)
Definition CRON_CMD (REPO_DIR USER : string) : string :=
  ("0 6 * * * cd " ++ REPO_DIR ++ " && /usr/bin/git pull && /home/" ++ USER
     ++ "/.nvm/versions/node/v18*/bin/npm install")%string.

(** [(crontab -l | grep -F "git pull") || (crontab -l; echo "$CRON_CMD")
    | crontab -], from the table [crontab -l] prints to the table
    afterwards; a user without a table has the empty one. *)
Definition installCron (REPO_DIR USER : string) (crontab : string) : string :=
  if contains "git pull" crontab then crontab
  else (crontab ++ CRON_CMD REPO_DIR USER ++ newline)%string.

(** The here-document appended to the profile. *)
Definition autostart : string :=
  (newline
   ++ "# KIOSK AUTOSTART" ++ newline
   ++ "if [[ -z $DISPLAY ]] && [[ $(tty) = /dev/tty1 ]]; then" ++ newline
   ++ "  startx" ++ newline
   ++ "fi" ++ newline)%string.

(** [if ! grep -q "KIOSK AUTOSTART" "$PROFILE_FILE"; then cat >>
    "$PROFILE_FILE"; fi], from the text of the file to its text
    afterwards. *)
Definition withAutostart (profile : string) : string :=
  if contains "KIOSK AUTOSTART" profile then profile
  else (profile ++ autostart)%string.

(** The two files of the home directory the installer looks at, each
    with its text when it exists. *)
Record Home : Type := {
  bash_profile : option string;
  bashrc : option string
}.

(** The profile is [.bash_profile] when that file exists and [.bashrc]
    when it does not; [grep] fails on a file that does not exist, and
    [>>] makes it. *)
Definition installAutostart (home : Home) : Home :=
  match bash_profile home with
  | Some profile =>
      {| bash_profile := Some (withAutostart profile);
         bashrc := bashrc home |}
  | None =>
      {| bash_profile := None;
         bashrc := Some (withAutostart match bashrc home with
                                       | Some profile => profile
                                       | None => ""%string
                                       end) |}
  end.

End Deploy.

(* ================================================================== *)
(** * Examples: a running kiosk, its messages and its interfaces *)
(* ================================================================== *)

Module Fixtures.
Import JS JSON Kiosk Overlay Reference.

(** The kiosk on the configuration the deploy script writes: with its
    window up, the same after the disk has become read-only, and before
    the window is made. *)
Definition showing : State :=
  run [AppReady fullHD; ReadyToShow] (startup deployedConfig true).

Definition readOnly : State :=
  run [AppReady fullHD; ReadyToShow; DiskChange false]
      (startup deployedConfig true).

Definition starting : State := startup deployedConfig true.

(** The kiosk on a [config.json] with [1e999] under [big], which
    [JSON.parse] reads as [Infinity]. *)
Definition oversized : State :=
  run [AppReady fullHD; ReadyToShow]
      (startup [("url"%string, VStr "https://example.com/display");
                ("big"%string, VNum infinity)] true).

(** A message with no [props] in its payload. *)
Definition noProps : value :=
  VObj [("payload"%string, VObj [("action"%string, VStr "saveProps")])].


(** What [sysInfo.get] gives on a device with a loopback interface and a
    wired one, which is the default; the third entry of the list is
    [null]. *)
Definition loopback : object :=
  [("iface"%string, VStr "lo");
   ("ip4"%string, VStr "127.0.0.1");
   ("mac"%string, VStr "00:00:00:00:00:00");
   ("default"%string, VBool false)].

Definition wired : object :=
  [("iface"%string, VStr "eth0");
   ("ip4"%string, VStr "192.168.1.100");
   ("mac"%string, VStr "d8:3a:dd:00:00:01");
   ("default"%string, VBool true)].

Definition piInfo : object :=
  [("cpu"%string, VObj [("manufacturer"%string, VStr "Sony UK")]);
   ("osInfo"%string,
    VObj [("platform"%string, VStr "linux");
          ("serial"%string, VStr "10000000a1b2c3d4")]);
   ("system"%string, VObj [("model"%string, VStr "Raspberry Pi 5")]);
   ("networkInterfaces"%string, VArr [VObj loopback; VObj wired; VNull])].

(** The same device with the cable out: no interface has a [default]
    that is [true]; that of the wireless one is a string. *)
Definition wireless : object :=
  [("iface"%string, VStr "wlan0");
   ("ip4"%string, VStr "10.0.0.7");
   ("default"%string, VStr "true")].

Definition unplugged : object :=
  [("osInfo"%string, VObj [("serial"%string, VStr "10000000a1b2c3d4")]);
   ("networkInterfaces"%string, VArr [VObj loopback; VObj wireless])].

(** A heartbeat body with a property that is [undefined], and what is
    read from its text. *)
Definition sparseBody : value :=
  VObj [("uptime"%string, VNum 86400%float); ("ip"%string, VUndefined)].

Definition sparseDocument : value :=
  VObj [("uptime"%string, VNum 86400%float)].

End Fixtures.
(* ================================================================== *)
(** * Properties of the kiosk shell *)
(* ================================================================== *)

Section KioskProperties.
Import JS JSON Kiosk.
Context {rt : Runtime}.

Lemma toJSON_props_cons (k : string) (e : value) (rest : object) :
  toJSON_props ((k, e) :: rest) =
  match toJSON e with
  | Some j => (k, j) :: toJSON_props rest
  | None => toJSON_props rest
  end.
Proof.
  unfold toJSON_props; simpl.
  destruct (toJSON e); reflexivity.
Qed.

Lemma getOwn_toJSON_props_skip (k k0 : string) (e : value) (rest : object) :
  String.eqb k k0 = false ->
  getOwn (toJSON_props ((k0, e) :: rest)) k = getOwn (toJSON_props rest) k.
Proof.
  intros Hk. rewrite toJSON_props_cons.
  destruct (toJSON e); simpl; [rewrite Hk|]; reflexivity.
Qed.

(** Assigning one property changes the document of no other. *)
Lemma getOwn_toJSON_props_set (o : object) (k k' : string) (v : value) :
  k <> k' ->
  getOwn (toJSON_props (set o k' v)) k = getOwn (toJSON_props o) k.
Proof.
  intros Hne.
  assert (Hk : String.eqb k k' = false) by (apply String.eqb_neq; exact Hne).
  induction o as [|[k0 v0] rest IH]; simpl.
  - rewrite getOwn_toJSON_props_skip by exact Hk. reflexivity.
  - destruct (String.eqb k' k0) eqn:Hk0.
    + apply String.eqb_eq in Hk0; subst k0.
      rewrite !getOwn_toJSON_props_skip by exact Hk. reflexivity.
    + rewrite !toJSON_props_cons.
      destruct (toJSON v0); simpl; [destruct (String.eqb k k0)|]; auto.
Qed.

Lemma getOwn_set (o : object) (k k' : string) (v : value) :
  k <> k' -> getOwn (set o k' v) k = getOwn o k.
Proof.
  intros Hne.
  assert (Hk : String.eqb k k' = false) by (apply String.eqb_neq; exact Hne).
  induction o as [|[k0 v0] rest IH]; simpl.
  - rewrite Hk. reflexivity.
  - destruct (String.eqb k' k0) eqn:Hk0; simpl.
    + apply String.eqb_eq in Hk0; subst k0. rewrite Hk. reflexivity.
    + rewrite IH. reflexivity.
Qed.

Section Frame.
Variable doc : object.
Variable k : string.
Hypothesis other : ~ In k savedProps.

Lemma keeps_ret A (a : A) : keeps doc k (ret a).
Proof. intros st H; exact H. Qed.

Lemma keeps_throw A (e : error) : keeps doc k (@throw A e).
Proof. intros st H; exact H. Qed.

Lemma keeps_eval A (r : option A) : keeps doc k (eval r).
Proof. destruct r; [apply keeps_ret | apply keeps_throw]. Qed.

Lemma keeps_bind A B (m : action A) (f : A -> action B) :
  keeps doc k m -> (forall a, keeps doc k (f a)) -> keeps doc k (bind m f).
Proof.
  intros Hm Hf st Hst. unfold bind.
  specialize (Hm st Hst).
  destruct (m st) as [[a|e] st']; simpl in *.
  - apply Hf; exact Hm.
  - exact Hm.
Qed.

Lemma keeps_assignConfig (k' : string) (v : value) :
  In k' savedProps -> keeps doc k (assignConfig k' v).
Proof.
  intros Hin st (Hfile & Hwritten & Hconfig). unfold fieldKept; simpl.
  assert (Hne : k <> k') by (intros ->; contradiction).
  rewrite getOwn_toJSON_props_set, getOwn_set by exact Hne.
  repeat split; assumption.
Qed.

Lemma keeps_writeConfig : keeps doc k writeConfig.
Proof.
  intros st Hst. unfold writeConfig.
  destruct (diskWritable st); simpl; [|exact Hst].
  destruct Hst as (_ & Hwritten & Hconfig).
  repeat split; assumption.
Qed.

Lemma keeps_onMainWindow (f : BrowserWindow -> BrowserWindow) :
  keeps doc k (onMainWindow f).
Proof.
  intros st Hst. unfold onMainWindow.
  destruct (mainWindow st); exact Hst.
Qed.

Lemma keeps_saveProps (data : value) : keeps doc k (saveProps data).
Proof.
  unfold saveProps.
  repeat first
    [ apply keeps_bind; [|intros ?]
    | apply keeps_eval
    | apply keeps_assignConfig; simpl; tauto
    | apply keeps_writeConfig
    | apply keeps_onMainWindow ].
Qed.

Lemma keeps_saveProps_presence (data : value) :
  keeps doc k (saveProps_presence data).
Proof.
  unfold saveProps_presence.
  apply keeps_bind; [apply keeps_saveProps | intros ?; apply keeps_ret].
Qed.

Lemma keeps_handle (e : event) : keeps doc k (handle e).
Proof.
  destruct e; simpl.
  - intros st Hst. unfold createMainWindow. apply keeps_onMainWindow. exact Hst.
  - apply keeps_onMainWindow.
  - intros st Hst. unfold onReadyToShow. apply keeps_onMainWindow. exact Hst.
  - apply keeps_saveProps.
  - intros st Hst; exact Hst.
Qed.

Lemma fieldKept_run (es : list event) :
  forall st, fieldKept doc k st -> fieldKept doc k (run es st).
Proof.
  induction es as [|e rest IH]; intros st Hst; simpl.
  - exact Hst.
  - apply IH. apply keeps_handle. exact Hst.
Qed.

Lemma fieldKept_startup (writable : bool) :
  getOwn (toJSON_props doc) k = getOwn doc k ->
  fieldKept doc k (startup doc writable).
Proof.
  intros Hdoc. unfold fieldKept; simpl. auto.
Qed.

End Frame.

(** C9, as the code has it. Whatever happened since the program read
    [config.json], with one handler running at a time, an invocation of
    [saveProps] (of either revision) leaves every field other than
    [name], [location], [url] and [zoomFactor] as it was, in the file
    and in [config]: absent if it was absent, and with its value
    otherwise, which is the value the file had at the start. The field
    is one that [JSON.stringify] writes back as it was read: the file is
    written from [config], so a number that is not finite comes back as
    [null]. *)
Theorem saveProps_keeps_other_fields :
  forall (doc : object) (writable : bool) (history : list event)
         (data : value) (k : string),
    ~ In k ["name"; "location"; "url"; "zoomFactor"]%string ->
    getOwn (toJSON_props doc) k = getOwn doc k ->
    let st := run history (startup doc writable) in
    (getOwn (fileProps (snd (saveProps data st))) k = getOwn (fileProps st) k /\
     getOwn (config (snd (saveProps data st))) k = getOwn (config st) k) /\
    (getOwn (fileProps (snd (saveProps_presence data st))) k = getOwn (fileProps st) k /\
     getOwn (config (snd (saveProps_presence data st))) k = getOwn (config st) k) /\
    getOwn (fileProps st) k = getOwn doc k.
Proof.
  intros doc writable history data k Hk Hdoc st.
  assert (Hst : fieldKept doc k st)
    by (apply fieldKept_run, fieldKept_startup; assumption).
  destruct (keeps_saveProps doc k Hk data st Hst) as (H1 & _ & M1).
  destruct (keeps_saveProps_presence doc k Hk data st Hst) as (H2 & _ & M2).
  destruct Hst as (H0 & _ & M0).
  rewrite H0, H1, H2, M0, M1, M2. auto.
Qed.

(** C10. Started on a [config.json] that omits [url], [fullscreen],
    [frame] or [zoomFactor], [createMainWindow] and the [ready-to-show]
    handler complete without an exception, and the window loads
    [https://edugo.be], is full screen, has no frame and has zoom factor
    1, respectively. *)
Theorem createMainWindow_defaults :
  forall (doc : object) (writable : bool) (display : Display),
    let st0 := startup doc writable in
    let st1 := snd (createMainWindow display st0) in
    let st2 := snd (onReadyToShow st1) in
    fst (createMainWindow display st0) = Return tt /\
    fst (onReadyToShow st1) = Return tt /\
    exists w,
      mainWindow st2 = Some w /\
      (getOwn doc "url" = None -> loadedURL w = Some (VStr "https://edugo.be")) /\
      (getOwn doc "fullscreen" = None -> fullscreen w = VBool true) /\
      (getOwn doc "frame" = None -> frame w = VBool false) /\
      (getOwn doc "zoomFactor" = None -> zoomFactor w = Some (VNum 1%float)).
Proof.
  intros doc writable display; simpl.
  repeat split.
  eexists; split; [reflexivity|]. simpl.
  unfold get.
  repeat split; intros ->; reflexivity.
Qed.

End KioskProperties.

(* ================================================================== *)
(** * Properties of request signing *)
(* ================================================================== *)

Lemma append_inv_head (p a b : string) :
  (p ++ a)%string = (p ++ b)%string -> a = b.
Proof.
  induction p as [|c p IH]; simpl; intros H.
  - exact H.
  - injection H as H. apply IH; exact H.
Qed.

Section CodecProperties.
Import JS JSON SignatureCodec.
Context {rt : Runtime} {E : Ed25519}.

Lemma gt_window_false (now ts : Z) (t : string) :
  Date_getTime t = Some ts ->
  (now - ts <= 5 * 60 * 1000)%Z ->
  gt (option_map (fun t => now - t)%Z (Date_getTime t)) (5 * 60 * 1000) = false.
Proof.
  intros -> Hage; simpl.
  rewrite Z.gtb_ltb. apply Z.ltb_ge. exact Hage.
Qed.

(** C1, as the code has it. [createSign] and [createVerify] take the
    name of a digest, and [Ed25519] is none: [signRequest] raises before
    it has made a signature, whatever it is given, and [verifyRequest]
    either answers [false] or raises; it raises on every request whose
    time stamp is within five minutes of the time of verification,
    whatever the keys. No signature is made and none is accepted. *)
Theorem signRequest_raises :
  forall (sk : privateKey) (pk : publicKey) (method path timestamp : string)
         (body : value) (now : Z) (signature : string),
    signRequest sk method path timestamp body = Abrupt ERR_CRYPTO_INVALID_DIGEST /\
    (verifyRequest now pk method path timestamp body signature = Normal false \/
     verifyRequest now pk method path timestamp body signature
       = Abrupt ERR_CRYPTO_INVALID_DIGEST) /\
    (forall ts : Z,
       Date_getTime timestamp = Some ts ->
       (Z.abs (now - ts) <= 5 * 60 * 1000)%Z ->
       verifyRequest now pk method path timestamp body signature
         = Abrupt ERR_CRYPTO_INVALID_DIGEST).
Proof.
  intros sk pk method path timestamp body now signature.
  split; [reflexivity|]. split.
  - unfold verifyRequest.
    destruct (gt (option_map (fun t => now - t)%Z (Date_getTime timestamp))
                 (5 * 60 * 1000)); [left | right]; reflexivity.
  - intros ts Hts Hwin.
    assert (Hage : (now - ts <= 5 * 60 * 1000)%Z) by lia.
    unfold verifyRequest.
    rewrite (gt_window_false now ts timestamp Hts Hage). reflexivity.
Qed.

(** C2. A request whose time stamp is more than five minutes old when it
    is verified is rejected, whatever its signature and the key. *)
Theorem verifyRequest_rejects_old :
  forall (now : Z) (pk : publicKey) (method path timestamp : string) (ts : Z)
         (body : value) (signature : string),
    Date_getTime timestamp = Some ts ->
    (now - ts > 5 * 60 * 1000)%Z ->
    verifyRequest now pk method path timestamp body signature = Normal false.
Proof.
  intros now pk method path timestamp ts body signature Hts Hold.
  unfold verifyRequest. rewrite Hts. unfold option_map, gt.
  assert (H : (now - ts >? 5 * 60 * 1000)%Z = true)
    by (rewrite Z.gtb_ltb; apply Z.ltb_lt; lia).
  rewrite H. reflexivity.
Qed.

(** C3, as the code has it. Both sides build the payload over
    [JSON.stringify] of the body value they hold: the verifier writes the
    parsed body out again and never sees the bytes of the request. The
    two payloads are equal exactly when the two values are written
    alike. *)
Theorem verify_payload_reserializes :
  forall (method path timestamp : string) (signed received : value),
    payload method path timestamp signed =
      spec_buildPayload method path timestamp (interpolate (stringify signed)) /\
    payload method path timestamp received =
      spec_buildPayload method path timestamp (interpolate (stringify received)) /\
    (payload method path timestamp received = payload method path timestamp signed
     <-> interpolate (stringify received) = interpolate (stringify signed)).
Proof.
  intros. repeat split.
  - unfold payload. intros H.
    repeat (apply append_inv_head in H). exact H.
  - unfold payload. intros ->. reflexivity.
Qed.

End CodecProperties.

Section CodecExamples.
Import JS JSON SignatureCodec Reference.

(** C1 fails on the heartbeat of the backend specification: signing it
    raises, and so does verifying it a second after its time stamp,
    with the signature of its payload under the key of the pair. *)
Lemma signRequest_raises_on_heartbeat :
  signRequest (secret "k") "POST" heartbeatPath heartbeatTime heartbeatBody
    = Abrupt ERR_CRYPTO_INVALID_DIGEST /\
  verifyRequest 1768305601000 (key "k") "POST" heartbeatPath heartbeatTime
    heartbeatBody
    (spec_sign (secret "k") "POST" heartbeatPath heartbeatTime heartbeatBody)
    = Abrupt ERR_CRYPTO_INVALID_DIGEST.
Proof.
  split; vm_compute; reflexivity.
Qed.

(** C2 on the heartbeat of the backend specification, verified five
    minutes and one millisecond after its time stamp: refused, although
    the signature given is that of its payload under the key. *)
Lemma verifyRequest_rejects_old_witness :
  verify_base64 (key "k")
    (payload "POST" heartbeatPath heartbeatTime heartbeatBody)
    (spec_sign (secret "k") "POST" heartbeatPath heartbeatTime heartbeatBody) = true /\
  verifyRequest 1768305900001 (key "k") "POST" heartbeatPath heartbeatTime
    heartbeatBody
    (spec_sign (secret "k") "POST" heartbeatPath heartbeatTime heartbeatBody)
  = Normal false.
Proof.
  split.
  - vm_compute. reflexivity.
  - apply (@verifyRequest_rejects_old runtime toy 1768305900001%Z (key "k")
             "POST"%string heartbeatPath heartbeatTime 1768305600000%Z);
      [reflexivity | lia].
Defined.

(** C3 fails on the heartbeat of the backend specification: the text of
    its body is parsed to [heartbeatBody], and the payload the verifier
    builds from that value is not the payload over the text. *)
Lemma verify_payload_is_not_over_wire_bytes :
  parse heartbeatWire = Some heartbeatBody /\
  payload "POST" heartbeatPath heartbeatTime heartbeatBody <>
  spec_buildPayload "POST" heartbeatPath heartbeatTime heartbeatWire.
Proof.
  split.
  - vm_compute. reflexivity.
  - intros H. vm_compute in H. discriminate H.
Qed.

End CodecExamples.

(* ================================================================== *)
(** * Properties of the registry and of the command queue *)
(* ================================================================== *)

Create HintDb registry.

Section RegistryProperties.
Import JS SignatureCodec Registry.
Context {rt : Runtime} {E : Ed25519}.

Lemma hasKey_true (pk : publicKey) (d : Device) :
  hasKey pk d = true <-> devicePublicKey d = pk.
Proof.
  unfold hasKey. destruct (publicKey_eq_dec (devicePublicKey d) pk); split; auto.
  discriminate.
Qed.

Lemma keepsIdentity_seenAt now : keepsIdentity (seenAt now).
Proof. intros d; split; reflexivity. Qed.

Lemma keepsIdentity_polledAt now : keepsIdentity (polledAt now).
Proof. intros d; split; reflexivity. Qed.

Lemma keepsIdentity_heardAt now report : keepsIdentity (heardAt now report).
Proof. intros d; split; reflexivity. Qed.

Lemma keepsIdentity_adoptedWith now cfg : keepsIdentity (adoptedWith now cfg).
Proof. intros d; split; reflexivity. Qed.

#[local] Hint Resolve keepsIdentity_seenAt keepsIdentity_polledAt
  keepsIdentity_heardAt keepsIdentity_adoptedWith : registry.

(** ** Updating a record in place *)

Lemma findById_updateDevice i j f (ds : list Device) :
  keepsIdentity f ->
  findById i (updateDevice j f ds) =
  if Nat.eqb i j then option_map f (findById i ds) else findById i ds.
Proof.
  intros Hf. unfold findById, updateDevice.
  induction ds as [|d rest IH]; simpl.
  - destruct (Nat.eqb i j); reflexivity.
  - destruct (Nat.eqb (deviceId d) j) eqn:Hdj.
    + destruct (Hf d) as [Hid _]. rewrite Hid.
      destruct (Nat.eqb (deviceId d) i) eqn:Hdi.
      * apply Nat.eqb_eq in Hdj, Hdi. subst.
        rewrite Nat.eqb_refl. reflexivity.
      * exact IH.
    + destruct (Nat.eqb (deviceId d) i) eqn:Hdi.
      * apply Nat.eqb_eq in Hdi. subst i. rewrite Hdj. reflexivity.
      * exact IH.
Qed.

(** ** Looking a record up *)

Lemma findByPublicKey_app_None pk (ds more : list Device) :
  findByPublicKey pk ds = None ->
  findByPublicKey pk (ds ++ more)%list = findByPublicKey pk more.
Proof.
  unfold findByPublicKey.
  induction ds as [|d rest IH]; simpl; [reflexivity|].
  destruct (hasKey pk d); [discriminate | exact IH].
Qed.

Lemma findByPublicKey_Some pk d (ds : list Device) :
  findByPublicKey pk ds = Some d -> In d ds /\ devicePublicKey d = pk.
Proof.
  unfold findByPublicKey. intros H. apply find_some in H.
  destruct H as [Hin Hk]. split; [exact Hin|]. apply hasKey_true. exact Hk.
Qed.

Lemma findByPublicKey_None pk (ds : list Device) :
  findByPublicKey pk ds = None -> ~ In pk (map devicePublicKey ds).
Proof.
  unfold findByPublicKey. intros H Hin.
  apply in_map_iff in Hin. destruct Hin as (d & Hd & Hin).
  pose proof (find_none _ _ H d Hin) as Hn.
  apply hasKey_true in Hd. rewrite Hd in Hn. discriminate.
Qed.

Lemma findById_fresh i (ds : list Device) :
  (forall d, In d ds -> deviceId d < i) -> findById i ds = None.
Proof.
  intros Hlt. unfold findById.
  destruct (find (fun d => Nat.eqb (deviceId d) i) ds) as [d|] eqn:Hf; [|reflexivity].
  apply find_some in Hf. destruct Hf as [Hin Heq].
  apply Nat.eqb_eq in Heq. specialize (Hlt d Hin). lia.
Qed.

Lemma findById_unique d (ds : list Device) :
  NoDup (map deviceId ds) -> In d ds -> findById (deviceId d) ds = Some d.
Proof.
  unfold findById. induction ds as [|d0 rest IH]; simpl; intros Hnd Hin.
  - contradiction.
  - inversion Hnd as [|? ? Hnotin Hnd']; subst.
    destruct Hin as [->|Hin].
    + rewrite Nat.eqb_refl. reflexivity.
    + destruct (Nat.eqb (deviceId d0) (deviceId d)) eqn:Heq.
      * apply Nat.eqb_eq in Heq. exfalso. apply Hnotin. rewrite Heq.
        apply in_map. exact Hin.
      * apply IH; assumption.
Qed.

Lemma filter_hasKey_NoDup pk (ds : list Device) :
  NoDup (map devicePublicKey ds) -> List.length (filter (hasKey pk) ds) <= 1.
Proof.
  induction ds as [|d rest IH]; simpl; intros Hnd; [lia|].
  inversion Hnd as [|? ? Hnotin Hnd']; subst.
  destruct (hasKey pk d) eqn:Hk; [|apply IH; exact Hnd'].
  apply hasKey_true in Hk.
  assert (Hnil : filter (hasKey pk) rest = []).
  { destruct (filter (hasKey pk) rest) as [|d' l] eqn:Hf; [reflexivity|].
    exfalso. apply Hnotin.
    assert (Hin : In d' (filter (hasKey pk) rest)) by (rewrite Hf; left; reflexivity).
    apply filter_In in Hin. destruct Hin as [Hin Hk'].
    apply hasKey_true in Hk'. rewrite Hk, <- Hk'. apply in_map. exact Hin. }
  rewrite Hnil. simpl. lia.
Qed.

Lemma recordsOf_nil_findByPublicKey pk (c : Controller) :
  recordsOf pk c = [] -> findByPublicKey pk (devices c) = None.
Proof.
  unfold recordsOf, findByPublicKey. intros Hnil.
  destruct (find _ (devices c)) as [d|] eqn:Hf; [|reflexivity].
  apply find_some in Hf.
  assert (Hin : In d (filter (hasKey pk) (devices c)))
    by (apply filter_In; exact Hf).
  rewrite Hnil in Hin. contradiction.
Qed.

(** ** What a call does to the records

    The well-formedness of the registry and the number of records of a
    key depend on the records only through their keys and identifiers,
    which no call but an announce changes. *)

Lemma identities_keys (c : Controller) :
  map fst (identities c) = map devicePublicKey (devices c).
Proof. unfold identities. rewrite map_map. reflexivity. Qed.

Lemma identities_ids (c : Controller) :
  map snd (identities c) = map deviceId (devices c).
Proof. unfold identities. rewrite map_map. reflexivity. Qed.

Lemma identities_In (c : Controller) (d : Device) :
  In d (devices c) -> In (devicePublicKey d, deviceId d) (identities c).
Proof.
  intros Hin. unfold identities.
  apply (in_map (fun d => (devicePublicKey d, deviceId d))). exact Hin.
Qed.

Lemma wellFormed_identities (c : Controller) :
  wellFormed c <->
  (forall p, In p (identities c) -> snd p < nextDeviceId c) /\
  NoDup (map snd (identities c)) /\
  NoDup (map fst (identities c)).
Proof.
  unfold wellFormed. rewrite identities_ids, identities_keys.
  split; intros (Hlt & Hids & Hkeys); repeat split; try assumption.
  - intros p Hp. unfold identities in Hp. apply in_map_iff in Hp.
    destruct Hp as (d & <- & Hin). apply Hlt; exact Hin.
  - intros d Hin. apply (Hlt _ (identities_In c d Hin)).
Qed.

Lemma wellFormed_same (c c' : Controller) :
  identities c' = identities c ->
  nextDeviceId c' = nextDeviceId c ->
  wellFormed c -> wellFormed c'.
Proof.
  intros Hids Hnext. rewrite !wellFormed_identities, Hids, Hnext. auto.
Qed.

Lemma recordsOf_identities pk (c : Controller) :
  List.length (recordsOf pk c) =
  List.length (filter (fun p => if publicKey_eq_dec (fst p) pk then true else false)
                      (identities c)).
Proof.
  unfold recordsOf, identities, hasKey.
  induction (devices c) as [|d rest IH]; simpl; [reflexivity|].
  destruct (publicKey_eq_dec (devicePublicKey d) pk); simpl; rewrite IH; reflexivity.
Qed.

Lemma identities_update i f (c : Controller) :
  keepsIdentity f ->
  identities (withDevices (updateDevice i f (devices c)) c) = identities c.
Proof.
  intros Hf. unfold identities, updateDevice; simpl.
  rewrite map_map. apply map_ext. intros d.
  destruct (Nat.eqb (deviceId d) i); [|reflexivity].
  destruct (Hf d) as [-> ->]. reflexivity.
Qed.

(** A call other than an announce adds no record and changes neither the
    key nor the identifier of one. *)
Lemma exec_keeps_identities tc (c : Controller) :
  isAnnounce (snd tc) = false ->
  identities (exec tc c) = identities c /\
  nextDeviceId (exec tc c) = nextDeviceId c.
Proof.
  destruct tc as [now [s k snapshot cfg|id cfg|id req|id req report|id a p|id cid]];
    unfold exec; simpl; intros Hcall; try discriminate Hcall.
  - unfold adopt. destruct (findById id (devices c)) as [d|]; [|auto].
    destruct (adoption d); simpl; [|auto].
    split; [apply identities_update; auto with registry | reflexivity].
  - unfold poll. destruct (findById id (devices c)) as [d|]; [|auto].
    destruct (negb (authentic now d req)); [auto|].
    destruct (adoption d); simpl; [auto|].
    split; [apply identities_update; auto with registry | reflexivity].
  - unfold heartbeat. destruct (findById id (devices c)) as [d|]; [|auto].
    destruct (negb (authentic now d req)); [auto|].
    destruct (adoption d); simpl; [auto|].
    split; [apply identities_update; auto with registry | reflexivity].
  - auto.
  - auto.
Qed.

Lemma identities_exec tc (c : Controller) :
  isAnnounce (snd tc) = false -> identities (exec tc c) = identities c.
Proof. intros Hcall. apply exec_keeps_identities. exact Hcall. Qed.

(** The write of an announce adds the record of a key it found none of,
    and otherwise adds none. *)
Lemma announceWrite_identities now s pk snapshot cfg found (c : Controller) :
  let c' := snd (announceWrite now s pk snapshot cfg found c) in
  match found with
  | None =>
      identities c' = (identities c ++ [(pk, nextDeviceId c)])%list /\
      nextDeviceId c' = S (nextDeviceId c)
  | Some _ =>
      identities c' = identities c /\ nextDeviceId c' = nextDeviceId c
  end.
Proof.
  unfold announceWrite. destruct found as [d|].
  - destruct (adoption d); simpl; [auto|].
    split; [apply identities_update; auto with registry | reflexivity].
  - unfold identities; simpl. rewrite map_app. auto.
Qed.

Lemma identities_announceWrite now s pk snapshot cfg found (c : Controller) :
  identities (snd (announceWrite now s pk snapshot cfg found c)) =
  match found with
  | None => (identities c ++ [(pk, nextDeviceId c)])%list
  | Some _ => identities c
  end.
Proof.
  pose proof (announceWrite_identities now s pk snapshot cfg found c) as H.
  destruct found; apply H.
Qed.

Lemma answerId_announceWrite now s pk snapshot cfg found (c : Controller) :
  answerId (fst (announceWrite now s pk snapshot cfg found c)) =
  match found with
  | None => nextDeviceId c
  | Some d => deviceId d
  end.
Proof.
  unfold announceWrite. destruct found as [d|]; [|reflexivity].
  destruct (adoption d); reflexivity.
Qed.

(** ** Every call keeps the registry well formed *)

Lemma wellFormed_announceWrite now s pk snapshot cfg found (c : Controller) :
  (found = None -> ~ In pk (map fst (identities c))) ->
  wellFormed c ->
  wellFormed (snd (announceWrite now s pk snapshot cfg found c)).
Proof.
  intros Habsent Hwf.
  pose proof (announceWrite_identities now s pk snapshot cfg found c) as Hwrite.
  destruct found as [d|]; destruct Hwrite as [Hids Hnext].
  - apply (wellFormed_same c); assumption.
  - specialize (Habsent eq_refl).
    apply wellFormed_identities. apply wellFormed_identities in Hwf.
    destruct Hwf as (Hlt & Hnodup & Hkeys).
    rewrite Hids, Hnext, !map_app. simpl. repeat split.
    + intros p Hp. apply in_app_or in Hp. destruct Hp as [Hp|[<-|[]]].
      * specialize (Hlt p Hp). lia.
      * simpl. lia.
    + apply NoDup_app; [exact Hnodup | repeat constructor; intros [] |].
      intros i Hin [<-|[]]. apply in_map_iff in Hin.
      destruct Hin as (p & Hp & Hin). specialize (Hlt p Hin). lia.
    + apply NoDup_app; [exact Hkeys | repeat constructor; intros [] |].
      intros k Hin [<-|[]]. contradiction.
Qed.

Lemma wellFormed_announce now s pk snapshot cfg (c : Controller) :
  wellFormed c -> wellFormed (snd (announce now s pk snapshot cfg c)).
Proof.
  intros Hwf. unfold announce. apply wellFormed_announceWrite; [|exact Hwf].
  intros Hnone. rewrite identities_keys. apply findByPublicKey_None. exact Hnone.
Qed.

Lemma wellFormed_exec tc (c : Controller) :
  wellFormed c -> wellFormed (exec tc c).
Proof.
  intros Hwf. destruct (isAnnounce (snd tc)) eqn:Hcall.
  - destruct tc as [now [s pk snapshot cfg| | | | |]]; try discriminate Hcall.
    apply wellFormed_announce; exact Hwf.
  - destruct (exec_keeps_identities tc c Hcall) as [Hids Hnext].
    apply (wellFormed_same c); assumption.
Qed.

Lemma reachable_wellFormed (c : Controller) : reachable c -> wellFormed c.
Proof.
  induction 1 as [|c tc _ IH].
  - unfold wellFormed; simpl. repeat split; [intros d [] | constructor | constructor].
  - apply wellFormed_exec; exact IH.
Qed.

Lemma reachable_execAll schedule (c : Controller) :
  reachable c -> reachable (execAll schedule c).
Proof.
  unfold execAll. revert c.
  induction schedule as [|tc rest IH]; intros c Hc; simpl.
  - exact Hc.
  - apply IH. constructor; exact Hc.
Qed.

(** ** Records per public key *)

(** The write of an announce removes no record, and leaves one of its
    key. *)
Lemma recordsOf_announceWrite k now s pk snapshot cfg found (c : Controller) :
  let c' := snd (announceWrite now s pk snapshot cfg found c) in
  List.length (recordsOf k c) <= List.length (recordsOf k c') /\
  (found = None -> 1 <= List.length (recordsOf pk c')).
Proof.
  intros c'. subst c'.
  pose proof (announceWrite_identities now s pk snapshot cfg found c) as Hwrite.
  rewrite !recordsOf_identities.
  destruct found as [d|]; destruct Hwrite as [-> _].
  - split; [lia | discriminate].
  - rewrite !filter_app, !length_app. simpl. split; [lia|]. intros _.
    destruct (publicKey_eq_dec pk pk) as [_|Hne]; [simpl; lia | contradiction].
Qed.

(** No call removes a record. *)
Lemma recordsOf_exec pk tc (c : Controller) :
  List.length (recordsOf pk c) <= List.length (recordsOf pk (exec tc c)).
Proof.
  destruct (isAnnounce (snd tc)) eqn:Hcall.
  - destruct tc as [now [s k snapshot cfg| | | | |]]; try discriminate Hcall.
    apply recordsOf_announceWrite.
  - rewrite !recordsOf_identities, identities_exec by exact Hcall. lia.
Qed.

Lemma recordsOf_execAll pk schedule (c : Controller) :
  List.length (recordsOf pk c) <= List.length (recordsOf pk (execAll schedule c)).
Proof.
  unfold execAll. revert c.
  induction schedule as [|tc rest IH]; intros c; simpl; [lia|].
  etransitivity; [apply (recordsOf_exec pk tc) | apply IH].
Qed.

(** After an announce of [pk] there is a record of [pk]. *)
Lemma recordsOf_announce now s pk snapshot cfg (c : Controller) :
  1 <= List.length (recordsOf pk (snd (announce now s pk snapshot cfg c))).
Proof.
  unfold announce.
  destruct (recordsOf_announceWrite pk now s pk snapshot cfg
              (findByPublicKey pk (devices c)) c) as [Hkept Hnew].
  destruct (findByPublicKey pk (devices c)) as [d|] eqn:Hfind.
  - apply findByPublicKey_Some in Hfind. destruct Hfind as [Hin Hk].
    etransitivity; [|exact Hkept].
    assert (Hd : In d (recordsOf pk c))
      by (apply filter_In; split; [exact Hin | apply hasKey_true; exact Hk]).
    destruct (recordsOf pk c); [contradiction | simpl; lia].
  - apply Hnew. reflexivity.
Qed.

Lemma recordsOf_reachable pk (c : Controller) :
  reachable c -> List.length (recordsOf pk c) <= 1.
Proof.
  intros Hc. apply reachable_wellFormed in Hc.
  destruct Hc as (_ & _ & Hkeys).
  apply filter_hasKey_NoDup. exact Hkeys.
Qed.

(** ** Announces in flight *)

Lemma lockedKeys_app (l1 l2 : list AnnounceCall) :
  lockedKeys (l1 ++ l2) = (lockedKeys l1 ++ lockedKeys l2)%list.
Proof. unfold lockedKeys. rewrite filter_app, map_app. reflexivity. Qed.

Lemma lockedKeys_cons (t : AnnounceCall) (l : list AnnounceCall) :
  lockedKeys (t :: l) =
  if holdsLock t then callKey t :: lockedKeys l else lockedKeys l.
Proof. unfold lockedKeys; simpl. destruct (holdsLock t); reflexivity. Qed.

Lemma lockedKeys_middle (before after : list AnnounceCall) (t : AnnounceCall) :
  lockedKeys (before ++ t :: after) =
  (lockedKeys before
   ++ (if holdsLock t then [callKey t] else [])
   ++ lockedKeys after)%list.
Proof.
  rewrite lockedKeys_app, lockedKeys_cons.
  destruct (holdsLock t); reflexivity.
Qed.

Lemma lockedKeys_In (t : AnnounceCall) (pool : list AnnounceCall) :
  In t pool -> holdsLock t = true -> In (callKey t) (lockedKeys pool).
Proof.
  intros Hin Hlock. unfold lockedKeys. apply in_map.
  apply filter_In. split; assumption.
Qed.

Lemma in_middle (A : Type) (x t : A) (before after : list A) :
  In x (before ++ t :: after) <-> x = t \/ In x (before ++ after).
Proof.
  rewrite !in_app_iff. simpl. intuition auto.
Qed.

(** What a call knows is kept when the registry keeps its records and
    gains none of the call's key. *)
Lemma phaseOk_kept (c c' : Controller) (t : AnnounceCall) :
  (forall p, In p (identities c) -> In p (identities c')) ->
  (phase t = LookedUp None ->
   ~ In (callKey t) (map fst (identities c)) ->
   ~ In (callKey t) (map fst (identities c'))) ->
  phaseOk c t -> phaseOk c' t.
Proof.
  unfold phaseOk. intros Hgrow Habsent.
  destruct (phase t) as [| |[d|]|a|a]; auto.
Qed.

Lemma phaseOk_same (c c' : Controller) (t : AnnounceCall) :
  identities c' = identities c -> phaseOk c t -> phaseOk c' t.
Proof.
  intros Heq. apply phaseOk_kept; rewrite Heq; auto.
Qed.

Lemma sound_step (s s' : System) : sound s -> step s s' -> sound s'.
Proof.
  intros (Hwf & Hlocks & Hcalls) Hstep.
  destruct Hstep as [c pool t Hphase
                    |c before t after Hphase Hfree
                    |c before t after Hphase
                    |c before t after found Hphase w
                    |c before t after answer Hphase
                    |c pool tc Hcall]; unfold sound; cbn [controller inFlight] in *.
  - (* a call arrives *)
    split; [exact Hwf|]. split.
    + rewrite lockedKeys_app, lockedKeys_cons.
      unfold holdsLock. rewrite Hphase. simpl. rewrite app_nil_r. exact Hlocks.
    + intros x Hx. apply in_app_or in Hx. destruct Hx as [Hx|[<-|[]]].
      * apply Hcalls; exact Hx.
      * unfold phaseOk. rewrite Hphase. exact I.
  - (* it takes the lock *)
    rewrite lockedKeys_middle in Hlocks, Hfree.
    assert (Hidle : holdsLock t = false) by (unfold holdsLock; rewrite Hphase; reflexivity).
    rewrite Hidle in Hlocks, Hfree. simpl in Hlocks, Hfree.
    split; [exact Hwf|]. split.
    + rewrite lockedKeys_middle. simpl.
      apply (NoDup_Add (Add_app (callKey t) (lockedKeys before) (lockedKeys after))).
      split; assumption.
    + intros x Hx. apply in_middle in Hx. destruct Hx as [->|Hx].
      * exact I.
      * apply Hcalls. apply in_middle. right; exact Hx.
  - (* it looks the key up *)
    assert (Hheld : holdsLock t = true) by (unfold holdsLock; rewrite Hphase; reflexivity).
    split; [exact Hwf|]. split.
    + rewrite lockedKeys_middle in *. simpl. rewrite Hheld in Hlocks. exact Hlocks.
    + intros x Hx. apply in_middle in Hx. destruct Hx as [->|Hx].
      * unfold phaseOk; simpl.
        destruct (findByPublicKey (callKey t) (devices c)) as [d|] eqn:Hfind.
        -- apply findByPublicKey_Some in Hfind. destruct Hfind as [Hin Hk].
           unfold identities. apply in_map_iff. exists d.
           rewrite Hk. split; [reflexivity | exact Hin].
        -- rewrite identities_keys. apply findByPublicKey_None. exact Hfind.
      * apply Hcalls. apply in_middle. right; exact Hx.
  - (* it writes and answers *)
    assert (Hheld : holdsLock t = true) by (unfold holdsLock; rewrite Hphase; reflexivity).
    assert (Ht : phaseOk c t) by (apply Hcalls, in_middle; left; reflexivity).
    unfold phaseOk in Ht. rewrite Hphase in Ht.
    rewrite lockedKeys_middle, Hheld in Hlocks.
    split; [|split].
    + apply wellFormed_announceWrite; [|exact Hwf].
      intros ->. exact Ht.
    + rewrite lockedKeys_middle. exact Hlocks.
    + intros x Hx. apply in_middle in Hx. destruct Hx as [->|Hx].
      * unfold phaseOk; simpl. subst w.
        rewrite identities_announceWrite, answerId_announceWrite.
        destruct found as [d|]; [exact Ht|].
        apply in_or_app. right. left. reflexivity.
      * assert (Hxin : In x (before ++ t :: after)) by (apply in_middle; right; exact Hx).
        specialize (Hcalls x Hxin). revert Hcalls.
        subst w. apply phaseOk_kept; rewrite identities_announceWrite.
        -- destruct found; [auto | intros p Hp; apply in_or_app; left; exact Hp].
        -- intros Hxphase Habsent. destruct found as [d|]; [exact Habsent|].
           rewrite map_app, in_app_iff. simpl. intros [Hin|[Heq|[]]]; [contradiction|].
           apply NoDup_remove_2 in Hlocks. apply Hlocks.
           rewrite Heq, <- lockedKeys_app.
           apply lockedKeys_In; [exact Hx|].
           unfold holdsLock. rewrite Hxphase. reflexivity.
  - (* it gives the lock back *)
    assert (Hheld : holdsLock t = true) by (unfold holdsLock; rewrite Hphase; reflexivity).
    rewrite lockedKeys_middle, Hheld in Hlocks.
    split; [exact Hwf|]. split.
    + rewrite lockedKeys_middle. simpl. apply NoDup_remove_1 in Hlocks. exact Hlocks.
    + intros x Hx. apply in_middle in Hx. destruct Hx as [->|Hx].
      * assert (Ht : phaseOk c t) by (apply Hcalls, in_middle; left; reflexivity).
        unfold phaseOk in *; simpl. rewrite Hphase in Ht. exact Ht.
      * apply Hcalls. apply in_middle. right; exact Hx.
  - (* another call takes effect *)
    split; [apply wellFormed_exec; exact Hwf|]. split; [exact Hlocks|].
    intros x Hx. apply (phaseOk_same c); [|apply Hcalls; exact Hx].
    apply identities_exec. exact Hcall.
Qed.

Lemma running_sound (s : System) : running s -> sound s.
Proof.
  induction 1 as [|s s' _ IH Hstep].
  - unfold sound, wellFormed; simpl.
    repeat split; try constructor; intros ? [].
  - apply (sound_step s); assumption.
Qed.

(** A record known by key and identifier is the one record of the key. *)
Lemma recordsOf_known pk id (c : Controller) :
  wellFormed c -> In (pk, id) (identities c) ->
  exists d, recordsOf pk c = [d] /\ deviceId d = id.
Proof.
  intros (_ & _ & Hkeys) Hin. unfold identities in Hin.
  apply in_map_iff in Hin. destruct Hin as (d & Hd & Hin).
  injection Hd as Hk Hid.
  assert (Hrec : In d (recordsOf pk c))
    by (apply filter_In; split; [exact Hin | apply hasKey_true; exact Hk]).
  pose proof (filter_hasKey_NoDup pk (devices c) Hkeys) as Hlen.
  fold (recordsOf pk c) in Hlen.
  destruct (recordsOf pk c) as [|d0 [|d1 rest]]; simpl in *.
  - contradiction.
  - destruct Hrec as [->|[]]. exists d. split; [reflexivity | exact Hid].
  - lia.
Qed.

(** C4. [announce] finds the record by the public key alone: its answer
    is the same whatever serial number, snapshot and configuration come
    with the key. With no record of the key, it adds a pending record of
    that key under an identifier no record has, and answers pending with
    that identifier. With an adopted record of the key, it answers
    adopted with the record's identifier and configuration, and sets the
    record's [lastSeenAt] to the time of the call, leaving the other
    records as they are. *)
Theorem announce_by_public_key :
  forall (c : Controller) (now : Z) (s : string) (pk : publicKey)
         (snapshot cfg : value),
    reachable c ->
    let r := announce now s pk snapshot cfg c in
    (forall now' s' snapshot' cfg',
        fst (announce now' s' pk snapshot' cfg' c) = fst r) /\
    (findByPublicKey pk (devices c) = None ->
     exists d,
       fst r = AnnouncePending (deviceId d) /\
       findById (deviceId d) (devices c) = None /\
       devices (snd r) = (devices c ++ [d])%list /\
       devicePublicKey d = pk /\
       adoption d = Pending /\
       createdAt d = now) /\
    (forall d,
        findByPublicKey pk (devices c) = Some d ->
        adoption d = Adopted ->
        fst r = AnnounceAdopted (deviceId d) (deviceConfig d) /\
        (exists d',
            findById (deviceId d) (devices (snd r)) = Some d' /\
            lastSeenAt d' = now /\
            adoption d' = Adopted /\
            deviceConfig d' = deviceConfig d /\
            devicePublicKey d' = pk) /\
        (forall i, i <> deviceId d ->
                   findById i (devices (snd r)) = findById i (devices c))).
Proof.
  intros c now s pk snapshot cfg Hc r.
  pose proof (reachable_wellFormed c Hc) as (Hlt & Hids & Hkeys).
  subst r. unfold announce, announceWrite. split; [|split].
  - intros now' s' snapshot' cfg'.
    destruct (findByPublicKey pk (devices c)) as [d|]; [|reflexivity].
    destruct (adoption d); reflexivity.
  - intros Hnone. rewrite Hnone. eexists. simpl.
    repeat split; try reflexivity.
    simpl. apply findById_fresh. exact Hlt.
  - intros d Hfind Hstate. rewrite Hfind, Hstate. simpl.
    apply findByPublicKey_Some in Hfind. destruct Hfind as [Hin Hk].
    split; [reflexivity|]. split.
    + exists (seenAt now d).
      rewrite findById_updateDevice by auto with registry.
      rewrite Nat.eqb_refl, (@findById_unique d (devices c) Hids Hin). simpl.
      repeat split; assumption.
    + intros i Hi.
      rewrite findById_updateDevice by auto with registry.
      destruct (Nat.eqb i (deviceId d)) eqn:Heq; [|reflexivity].
      apply Nat.eqb_eq in Heq. contradiction.
Qed.

(** C5. The controller runs each announce as a sequence under the
    lock of its key, and the announces in flight move in any order, among
    themselves and with the other calls. In every state it reaches, no
    public key has two records, and every announce that has returned
    answered with the identifier of the one record of its key: two
    announces of one key, concurrent or not, name the same record. Run
    one after the other on a key that had no record, they leave one
    record of it, a pending one; and once an announce of a key is among
    the calls that took effect, the key has exactly one record. *)
Theorem one_record_per_public_key :
  (forall s : System,
      running s ->
      (forall pk, List.length (recordsOf pk (controller s)) <= 1) /\
      (forall t answer,
          In t (inFlight s) -> phase t = Returned answer ->
          exists d,
            recordsOf (callKey t) (controller s) = [d] /\
            deviceId d = answerId answer) /\
      (forall t1 t2 answer1 answer2,
          In t1 (inFlight s) -> In t2 (inFlight s) ->
          phase t1 = Returned answer1 -> phase t2 = Returned answer2 ->
          callKey t1 = callKey t2 ->
          answerId answer1 = answerId answer2)) /\
  (forall c : Controller,
      reachable c ->
      (forall pk, List.length (recordsOf pk c) <= 1) /\
      (forall pk schedule now s snapshot cfg,
          In (now, Announce s pk snapshot cfg) schedule ->
          List.length (recordsOf pk (execAll schedule c)) = 1) /\
      (forall pk now1 s1 snapshot1 cfg1 now2 s2 snapshot2 cfg2,
          recordsOf pk c = [] ->
          let r1 := announce now1 s1 pk snapshot1 cfg1 c in
          let r2 := announce now2 s2 pk snapshot2 cfg2 (snd r1) in
          exists d,
            recordsOf pk (snd r2) = [d] /\
            adoption d = Pending /\
            fst r1 = AnnouncePending (deviceId d) /\
            fst r2 = AnnouncePending (deviceId d))).
Proof.
  split.
  - intros s Hrun. apply running_sound in Hrun.
    destruct Hrun as (Hwf & _ & Hcalls).
    assert (Hreturned : forall t answer,
               In t (inFlight s) -> phase t = Returned answer ->
               exists d,
                 recordsOf (callKey t) (controller s) = [d] /\
                 deviceId d = answerId answer).
    { intros t answer Hin Hphase. specialize (Hcalls t Hin).
      unfold phaseOk in Hcalls. rewrite Hphase in Hcalls.
      apply recordsOf_known; assumption. }
    split; [|split; [exact Hreturned|]].
    + intros pk. destruct Hwf as (_ & _ & Hkeys).
      apply filter_hasKey_NoDup. exact Hkeys.
    + intros t1 t2 answer1 answer2 Hin1 Hin2 Hp1 Hp2 Hkey.
      destruct (Hreturned t1 answer1 Hin1 Hp1) as (d1 & Hrec1 & Hid1).
      destruct (Hreturned t2 answer2 Hin2 Hp2) as (d2 & Hrec2 & Hid2).
      rewrite Hkey, Hrec2 in Hrec1. injection Hrec1 as Hd.
      rewrite <- Hid1, <- Hid2, Hd. reflexivity.
  - intros c Hc. repeat split.
    + intros pk. apply recordsOf_reachable; exact Hc.
    + intros pk schedule now s snapshot cfg Hin.
      apply Nat.le_antisymm.
      * apply recordsOf_reachable, reachable_execAll; exact Hc.
      * apply in_split in Hin. destruct Hin as (before & after & ->).
        unfold execAll. rewrite fold_left_app. simpl.
        etransitivity; [|apply recordsOf_execAll].
        unfold exec at 1; simpl. apply recordsOf_announce.
    + intros pk now1 s1 snapshot1 cfg1 now2 s2 snapshot2 cfg2 Hnil r1 r2.
      pose proof (recordsOf_nil_findByPublicKey _ _ Hnil) as Hnone.
      subst r2 r1. unfold announce at 2 3 5. rewrite Hnone. simpl.
      unfold announce. simpl.
      rewrite findByPublicKey_app_None by exact Hnone.
      assert (Hk : forall d, devicePublicKey d = pk -> hasKey pk d = true)
        by (intros d Hd; apply hasKey_true; exact Hd).
      unfold findByPublicKey. simpl.
      rewrite Hk by reflexivity. simpl.
      eexists. unfold recordsOf; simpl. rewrite filter_app.
      fold (recordsOf pk c). rewrite Hnil. simpl.
      rewrite Hk by reflexivity.
      repeat split; reflexivity.
Qed.


(** ** Acknowledging a command *)

Lemma isPending_acknowledged now id cid cmd :
  isPending id cid (acknowledged now cmd) = false.
Proof. unfold isPending; simpl. apply andb_false_r. Qed.

Lemma acknowledge_twice now now' id cid (cmds : list Command) :
  map (fun cmd => if isPending id cid cmd then acknowledged now' cmd else cmd)
      (map (fun cmd => if isPending id cid cmd then acknowledged now cmd else cmd) cmds)
  = map (fun cmd => if isPending id cid cmd then acknowledged now cmd else cmd) cmds.
Proof.
  rewrite map_map. apply map_ext. intros cmd.
  destruct (isPending id cid cmd) eqn:Hp.
  - rewrite isPending_acknowledged. reflexivity.
  - rewrite Hp. reflexivity.
Qed.

Lemma listPending_acknowledge now id id' cid (cmds : list Command) :
  filter (pendingOf id')
         (map (fun cmd => if isPending id cid cmd then acknowledged now cmd else cmd) cmds)
  = filter (fun cmd => negb (Nat.eqb id' id && Nat.eqb (commandId cmd) cid))
           (filter (pendingOf id') cmds).
Proof.
  induction cmds as [|cmd rest IH]; [reflexivity|].
  cbn [map filter]. rewrite IH. clear IH.
  unfold isPending, pendingOf.
  destruct (Nat.eqb_spec (commandId cmd) cid) as [Hc|Hc];
    destruct (Nat.eqb_spec (owner cmd) id) as [Ho|Ho];
    destruct (acknowledgedAt cmd) as [t|] eqn:Ha;
    cbn [andb acknowledged owner acknowledgedAt];
    rewrite ?Ha;
    destruct (Nat.eqb_spec (owner cmd) id') as [Ho'|Ho'];
    cbn [andb filter];
    destruct (Nat.eqb_spec id' id) as [Hi|Hi];
    cbn [andb negb];
    try reflexivity; try congruence.
  all: destruct (Nat.eqb_spec (commandId cmd) cid); cbn [negb];
    try reflexivity; congruence.
Qed.

(** C7. [acknowledge] always succeeds. It takes the command out of the
    pending queue of the device and leaves every other pending command,
    of that device and of the others, in its place. On a command that is
    unknown or already acknowledged it leaves the whole state as it is;
    so acknowledging twice is acknowledging once. *)
Theorem acknowledge_idempotent :
  forall (c : Controller) (now now' : Z) (id cid : nat),
    let r := acknowledge now id cid c in
    fst r = Ok tt /\
    (forall cmd, In cmd (listPending id (snd r)) -> commandId cmd <> cid) /\
    (forall id',
        listPending id' (snd r) =
        filter (fun cmd => negb (Nat.eqb id' id && Nat.eqb (commandId cmd) cid))
               (listPending id' c)) /\
    ((forall cmd, In cmd (listPending id c) -> commandId cmd <> cid) -> snd r = c) /\
    acknowledge now' id cid (snd r) = (Ok tt, snd r).
Proof.
  intros c now now' id cid r. subst r.
  assert (Hlist : forall id',
             listPending id' (snd (acknowledge now id cid c)) =
             filter (fun cmd => negb (Nat.eqb id' id && Nat.eqb (commandId cmd) cid))
                    (listPending id' c))
    by (intros id'; apply (listPending_acknowledge now id id' cid (commands c))).
  split; [reflexivity|]. split; [|split; [exact Hlist|split]].
  - intros cmd Hin Heq. rewrite Hlist in Hin. apply filter_In in Hin.
    destruct Hin as [_ Hneg]. rewrite Nat.eqb_refl in Hneg; simpl in Hneg.
    apply Nat.eqb_eq in Heq. rewrite Heq in Hneg. discriminate.
  - intros Hnone. unfold acknowledge; simpl.
    assert (Hmap : map (fun cmd => if isPending id cid cmd
                                   then acknowledged now cmd else cmd) (commands c)
                   = commands c).
    { rewrite <- (map_id (commands c)) at 2. apply map_ext_in.
      intros cmd Hin. destruct (isPending id cid cmd) eqn:Hp; [|reflexivity].
      exfalso. unfold isPending in Hp.
      apply andb_prop in Hp. destruct Hp as [Hp Hack].
      apply andb_prop in Hp. destruct Hp as [Hcid Hown].
      apply (Hnone cmd); [|apply Nat.eqb_eq; exact Hcid].
      unfold listPending. apply filter_In. split; [exact Hin|].
      unfold pendingOf. rewrite Hown. exact Hack. }
    rewrite Hmap. destruct c; reflexivity.
  - unfold acknowledge; simpl. rewrite acknowledge_twice. reflexivity.
Qed.

(** ** Classification *)



End RegistryProperties.

(* ================================================================== *)
(** * The properties on the scenarios of the specification *)
(* ================================================================== *)

Section Scenarios.
Import JS JSON Kiosk SignatureCodec Registry Reference.

(** C9 on the configuration the deploy script writes: after the window
    is up, saving new properties leaves the controller address in the
    file and in [config]. *)
Lemma saveProps_keeps_other_fields_witness :
  let st := run [AppReady fullHD; ReadyToShow] (startup deployedConfig true) in
  getOwn (fileProps (snd (saveProps newProps st))) "controller"
    = Some (VStr "https://controller.example.com") /\
  getOwn (config (snd (saveProps newProps st))) "controller"
    = Some (VStr "https://controller.example.com") /\
  getOwn (fileProps (snd (saveProps newProps st))) "name" = Some (VStr "lobby-1").
Proof.
  intros st.
  destruct (@saveProps_keeps_other_fields runtime deployedConfig true
              [AppReady fullHD; ReadyToShow] newProps "controller"%string)
    as ((Hfile & Hconfig) & _ & _).
  - simpl. intros [H|[H|[H|[H|[]]]]]; discriminate H.
  - vm_compute. reflexivity.
  - split; [|split].
    + fold st in Hfile. rewrite Hfile. reflexivity.
    + fold st in Hconfig. rewrite Hconfig. reflexivity.
    + vm_compute. reflexivity.
Defined.

(** C9 fails on a field that [JSON.stringify] does not write back as
    it was read: the field [big], which was [1e999] and is no field
    [saveProps] assigns, is [null] in the file after a [saveProps] that
    completed. *)
Lemma saveProps_rewrites_non_finite_field :
  fst (saveProps newProps Fixtures.oversized) = Return tt /\
  getOwn (fileProps Fixtures.oversized) "big" = Some (VNum infinity) /\
  getOwn (fileProps (snd (saveProps newProps Fixtures.oversized))) "big"
    = Some VNull.
Proof.
  split; [|split]; vm_compute; reflexivity.
Qed.

(** The document [saveProps] leaves in the file is the one its text is
    read back as. *)
Lemma saved_config_reads_back :
  let st := snd (saveProps newProps
                   (run [AppReady fullHD] (startup deployedConfig true))) in
  parse (print (configFile st)) = Some (configFile st) /\
  getOwn (fileProps st) "zoomFactor" = Some (VNum 2%float).
Proof. vm_compute. split; reflexivity. Qed.

(** C10 on an empty [config.json]. *)
Lemma createMainWindow_defaults_witness :
  exists w,
    mainWindow (snd (onReadyToShow (snd (createMainWindow fullHD (startup [] true)))))
      = Some w /\
    loadedURL w = Some (VStr "https://edugo.be") /\
    fullscreen w = VBool true /\
    frame w = VBool false /\
    zoomFactor w = Some (VNum 1%float).
Proof.
  destruct (createMainWindow_defaults [] true fullHD)
    as (_ & _ & w & Hw & Hurl & Hfull & Hframe & Hzoom).
  exists w. split; [exact Hw|].
  split; [apply Hurl; reflexivity|].
  split; [apply Hfull; reflexivity|].
  split; [apply Hframe; reflexivity|].
  apply Hzoom; reflexivity.
Defined.

Lemma reachable_adoptedOnce : reachable adoptedOnce.
Proof. unfold adoptedOnce, announced. repeat constructor. Qed.

(** C4 in the scenario: the adopted device announces itself again, and a
    device with the same serial number and another key announces
    itself. *)
Lemma announce_by_public_key_witness :
  fst (announce 1768305600000 "A1" (key "k") VNull VNull adoptedOnce)
    = AnnounceAdopted 0 lobbyConfig /\
  exists d,
    fst (announce 1768305600000 "A1" (key "j") VNull VNull adoptedOnce)
      = AnnouncePending (deviceId d) /\
    findById (deviceId d) (devices adoptedOnce) = None /\
    adoption d = Pending.
Proof.
  split.
  - destruct (@announce_by_public_key runtime toy adoptedOnce 1768305600000%Z
                "A1"%string (key "k") VNull VNull reachable_adoptedOnce)
      as (_ & _ & Hadopted).
    destruct (findByPublicKey (key "k") (devices adoptedOnce))
      as [d|] eqn:Hfind; [|discriminate Hfind].
    injection Hfind as Hd.
    destruct (Hadopted d eq_refl) as (Hanswer & _).
    + rewrite <- Hd. reflexivity.
    + rewrite Hanswer, <- Hd. reflexivity.
  - destruct (@announce_by_public_key runtime toy adoptedOnce 1768305600000%Z
                "A1"%string (key "j") VNull VNull reachable_adoptedOnce)
      as (_ & Hnew & _).
    destruct (Hnew eq_refl) as (d & Hanswer & Hfresh & _ & _ & Hpending & _).
    exists d. auto.
Defined.

(** A run of the controller: both announces arrive before the first
    takes the lock; the second can take it only once the first has given
    it back, and then finds the record the first has made. *)
Lemma running_raced : running raced.
Proof.
  pose (sys := fun c pool => {| controller := c; inFlight := pool |}).
  assert (H1 : running (sys empty [firstCall]))
    by (apply (running_step _ _ running_start);
        apply (step_arrive empty [] firstCall); reflexivity).
  assert (H2 : running (sys empty [firstCall; secondCall]))
    by (apply (running_step _ _ H1);
        apply (step_arrive empty [firstCall] secondCall); reflexivity).
  assert (H3 : running (sys empty [inPhase Locked firstCall; secondCall])).
  { apply (running_step _ _ H2).
    apply (step_lock empty [] firstCall [secondCall]); [reflexivity|].
    intros []. }
  assert (H4 : running (sys empty [inPhase (LookedUp None) firstCall; secondCall]))
    by (apply (running_step _ _ H3);
        apply (step_lookUp empty [] (inPhase Locked firstCall) [secondCall]);
        reflexivity).
  assert (H5 : running (sys afterFirst
                          [inPhase (Written (AnnouncePending 0)) firstCall;
                           secondCall]))
    by (apply (running_step _ _ H4);
        apply (step_write empty [] (inPhase (LookedUp None) firstCall)
                 [secondCall] None);
        reflexivity).
  assert (H6 : running (sys afterFirst
                          [inPhase (Returned (AnnouncePending 0)) firstCall;
                           secondCall]))
    by (apply (running_step _ _ H5);
        apply (step_unlock afterFirst []
                 (inPhase (Written (AnnouncePending 0)) firstCall) [secondCall]);
        reflexivity).
  assert (H7 : running (sys afterFirst
                          [inPhase (Returned (AnnouncePending 0)) firstCall;
                           inPhase Locked secondCall])).
  { apply (running_step _ _ H6).
    apply (step_lock afterFirst
             [inPhase (Returned (AnnouncePending 0)) firstCall] secondCall []);
      [reflexivity|].
    intros []. }
  assert (H8 : running (sys afterFirst
                          [inPhase (Returned (AnnouncePending 0)) firstCall;
                           inPhase (LookedUp (findByPublicKey (key "j")
                                                (devices afterFirst)))
                                   secondCall]))
    by (apply (running_step _ _ H7);
        apply (step_lookUp afterFirst
                 [inPhase (Returned (AnnouncePending 0)) firstCall]
                 (inPhase Locked secondCall) []);
        reflexivity).
  assert (H9 : running (sys afterFirst
                          [inPhase (Returned (AnnouncePending 0)) firstCall;
                           inPhase (Written (AnnouncePending 0)) secondCall]))
    by (apply (running_step _ _ H8);
        apply (step_write afterFirst
                 [inPhase (Returned (AnnouncePending 0)) firstCall]
                 (inPhase (LookedUp (findByPublicKey (key "j")
                                       (devices afterFirst))) secondCall)
                 [] (findByPublicKey (key "j") (devices afterFirst)));
        reflexivity).
  apply (running_step _ _ H9).
  apply (step_unlock afterFirst
           [inPhase (Returned (AnnouncePending 0)) firstCall]
           (inPhase (Written (AnnouncePending 0)) secondCall) []).
  reflexivity.
Qed.

(** C5 in the scenario: the two concurrent announces of the new key
    leave one record of it, the one both answered with; and two
    announces of a new key, with an adoption between them, leave one
    record of the key. *)
Lemma one_record_per_public_key_witness :
  (exists d,
      recordsOf (key "j") (controller raced) = [d] /\
      deviceId d = 0 /\
      adoption d = Pending) /\
  List.length
    (recordsOf (key "j")
       (execAll [(1768305600000%Z, Announce "B2" (key "j") VNull VNull);
                 (1768305601000%Z, Adopt 1 lobbyConfig);
                 (1768305602000%Z, Announce "B2" (key "j") VNull VNull)]
                adoptedOnce)) = 1.
Proof.
  destruct (@one_record_per_public_key runtime toy) as (Hrunning & Hreachable).
  split.
  - destruct (Hrunning raced running_raced) as (_ & Hreturned & _).
    destruct (Hreturned (inPhase (Returned (AnnouncePending 0)) secondCall)
                (AnnouncePending 0)) as (d & Hrecords & Hid).
    + right; left; reflexivity.
    + reflexivity.
    + exists d. split; [exact Hrecords|]. split; [exact Hid|].
      change (recordsOf (key "j") afterFirst = [d]) in Hrecords.
      injection Hrecords as Hd. rewrite <- Hd. reflexivity.
  - destruct (Hreachable adoptedOnce reachable_adoptedOnce) as (_ & Hone & _).
    apply (Hone (key "j") _ 1768305600000%Z "B2"%string VNull VNull).
    left; reflexivity.
Defined.


(** C7 in the scenario: the queued command is acknowledged; a second
    acknowledgement, and one of a command that does not exist, change
    nothing. *)
Lemma acknowledge_idempotent_witness :
  listPending 0 (snd (acknowledge 1768305700000 0 0 queued)) = [] /\
  acknowledge 1768305800000 0 0 (snd (acknowledge 1768305700000 0 0 queued))
    = (Ok tt, snd (acknowledge 1768305700000 0 0 queued)) /\
  snd (acknowledge 1768305700000 0 7 queued) = queued.
Proof.
  destruct (@acknowledge_idempotent toy queued 1768305700000%Z 1768305800000%Z 0 0) as (_ & _ & Hlist & _ & Htwice).
  destruct (@acknowledge_idempotent toy queued 1768305700000%Z 1768305800000%Z 0 7) as (_ & _ & _ & Hunknown & _).
  split; [rewrite Hlist; reflexivity|].
  split; [exact Htwice|].
  apply Hunknown. intros cmd [<-|[]]. discriminate.
Defined.


End Scenarios.

(* ================================================================== *)
(** * Saving properties: outcome, effects and the next start *)
(* ================================================================== *)

Section ObjectProperties.
Import JS JSON.

Lemma getOwn_set_same (o : object) (k : string) (v : value) :
  getOwn (set o k v) k = Some v.
Proof.
  induction o as [|[k0 v0] rest IH]; simpl.
  - rewrite String.eqb_refl. reflexivity.
  - destruct (String.eqb k k0) eqn:Hk; simpl; rewrite Hk; auto.
Qed.




Lemma getOwn_absent (o : object) (k : string) :
  ~ In k (map fst o) -> getOwn o k = None.
Proof.
  induction o as [|[k0 v0] rest IH]; simpl; intros Hin.
  - reflexivity.
  - destruct (String.eqb k k0) eqn:Hk.
    + apply String.eqb_eq in Hk. subst. contradiction Hin; left; reflexivity.
    + apply IH. intros H. apply Hin. right; exact H.
Qed.

Lemma toJSON_props_keys (o : object) (k : string) :
  In k (map fst (toJSON_props o)) -> In k (map fst o).
Proof.
  induction o as [|[k0 v0] rest IH]; simpl.
  - intros [].
  - rewrite toJSON_props_cons. destruct (toJSON v0); simpl.
    + intros [H|H]; [left; exact H | right; apply IH; exact H].
    + intros H. right; apply IH; exact H.
Qed.

Lemma getOwn_toJSON_props_absent (o : object) (k : string) :
  ~ In k (map fst o) -> getOwn (toJSON_props o) k = None.
Proof.
  intros Hin. apply getOwn_absent. intros H. apply Hin.
  apply toJSON_props_keys. exact H.
Qed.

(** The document of an object has, under a key, the document of the
    value the object has there: none when that is [undefined]. *)
Lemma getOwn_toJSON_props (o : object) (k : string) (v : value) :
  NoDup (map fst o) -> getOwn o k = Some v ->
  getOwn (toJSON_props o) k = toJSON v.
Proof.
  induction o as [|[k0 v0] rest IH]; simpl; intros Hnd Hk.
  - discriminate Hk.
  - inversion Hnd as [|? ? Hnotin Hnd']; subst.
    rewrite toJSON_props_cons.
    destruct (String.eqb k k0) eqn:Hkk0.
    + apply String.eqb_eq in Hkk0. subst k0. injection Hk as ->.
      destruct (toJSON v) eqn:Hj; simpl.
      * rewrite String.eqb_refl. reflexivity.
      * apply getOwn_toJSON_props_absent. exact Hnotin.
    + destruct (toJSON v0); simpl; [rewrite Hkk0|]; apply IH; assumption.
Qed.

(** The same without the condition on the keys, for a value that has a
    document. *)
Lemma getOwn_toJSON_props_some (o : object) (k : string) (v j : value) :
  getOwn o k = Some v -> toJSON v = Some j ->
  getOwn (toJSON_props o) k = Some j.
Proof.
  induction o as [|[k0 v0] rest IH]; simpl; intros Hk Hj.
  - discriminate Hk.
  - rewrite toJSON_props_cons.
    destruct (String.eqb k k0) eqn:Hkk0.
    + injection Hk as ->. rewrite Hj. simpl. rewrite Hkk0. reflexivity.
    + destruct (toJSON v0); simpl; [rewrite Hkk0|]; apply IH; assumption.
Qed.

Lemma set_keys (o : object) (k : string) (v : value) :
  map fst (set o k v) =
  if existsb (String.eqb k) (map fst o) then map fst o
  else (map fst o ++ [k])%list.
Proof.
  induction o as [|[k0 v0] rest IH]; simpl.
  - reflexivity.
  - destruct (String.eqb k k0) eqn:Hk; simpl.
    + reflexivity.
    + rewrite IH. destruct (existsb (String.eqb k) (map fst rest)); reflexivity.
Qed.

Lemma NoDup_set (o : object) (k : string) (v : value) :
  NoDup (map fst o) -> NoDup (map fst (set o k v)).
Proof.
  intros Hnd. rewrite set_keys.
  destruct (existsb (String.eqb k) (map fst o)) eqn:Hex; [exact Hnd|].
  apply NoDup_app; [exact Hnd | repeat constructor; intros [] |].
  intros k' Hin [Hk|[]]. subst k'.
  assert (Htrue : existsb (String.eqb k) (map fst o) = true).
  { apply existsb_exists. exists k. split; [exact Hin | apply String.eqb_refl]. }
  rewrite Htrue in Hex. discriminate Hex.
Qed.

End ObjectProperties.

Section SavePropsProperties.
Import JS JSON Kiosk Session.
Context {rt : Runtime}.

(** [data.payload.props] is there for each of its properties or for
    none. *)
Lemma propsField_some (data : value) (k k' : string) (v : value) :
  propsField data k = Some v -> exists v', propsField data k' = Some v'.
Proof.
  unfold propsField.
  destruct (member data "payload") as [payload|]; [|discriminate].
  destruct (member payload "props") as [props|]; [|discriminate].
  destruct props; unfold member; intros H; try discriminate H; eauto.
Qed.

Lemma propsField_none (data : value) (k k' : string) :
  propsField data k = None -> propsField data k' = None.
Proof.
  intros Hk. destruct (propsField data k') as [v'|] eqn:Hk'; [|reflexivity].
  destruct (propsField_some data k' k v' Hk') as [v Hv].
  rewrite Hv in Hk. discriminate Hk.
Qed.

Lemma saveProps_throws (data : value) (st : State) :
  propsField data "name" = None ->
  saveProps data st = (Throw TypeError, st).
Proof.
  intros Hname. unfold saveProps, bind. rewrite Hname. reflexivity.
Qed.

(** [saveProps] as one step, for an argument that has
    [data.payload.props]. *)
Lemma saveProps_eq (data : value) (st : State) (name location url zoom : value) :
  propsField data "name" = Some name ->
  propsField data "location" = Some location ->
  propsField data "url" = Some url ->
  propsField data "zoomFactor" = Some zoom ->
  saveProps data st =
  let c := assigned name location url (parseFloat zoom) (config st) in
  if diskWritable st then
    match mainWindow st with
    | Some w =>
        (Return tt,
         {| config := c;
            configFile := VObj (toJSON_props c);
            diskWritable := true;
            mainWindow :=
              Some {| x := x w; y := y w; width := width w; height := height w;
                      fullscreen := fullscreen w; frame := frame w;
                      loadedURL := Some url;
                      zoomFactor := Some (VNum (parseFloat zoom));
                      insertedCSS := insertedCSS w |} |})
    | None =>
        (Throw TypeError,
         {| config := c;
            configFile := VObj (toJSON_props c);
            diskWritable := true;
            mainWindow := None |})
    end
  else
    (Throw IOError,
     {| config := c;
        configFile := configFile st;
        diskWritable := false;
        mainWindow := mainWindow st |}).
Proof.
  intros Hname Hlocation Hurl Hzoom.
  unfold saveProps. rewrite Hname, Hlocation, Hurl, Hzoom.
  destruct st as [c f [|] [w|]]; reflexivity.
Qed.

Lemma assigned_fields (name location url : value) (zoom : float) (o : object) :
  getOwn (assigned name location url zoom o) "name" = Some name /\
  getOwn (assigned name location url zoom o) "location" = Some location /\
  getOwn (assigned name location url zoom o) "url" = Some url /\
  getOwn (assigned name location url zoom o) "zoomFactor" = Some (VNum zoom).
Proof.
  unfold assigned. repeat split.
  - rewrite !getOwn_set by discriminate. apply getOwn_set_same.
  - rewrite !getOwn_set by discriminate. apply getOwn_set_same.
  - rewrite !getOwn_set by discriminate. apply getOwn_set_same.
  - apply getOwn_set_same.
Qed.

Lemma NoDup_assigned (name location url : value) (zoom : float) (o : object) :
  NoDup (map fst o) -> NoDup (map fst (assigned name location url zoom o)).
Proof.
  intros Hnd. unfold assigned. repeat apply NoDup_set. exact Hnd.
Qed.

(** What [JSON.stringify] writes of the four properties assigned. *)
Lemma assigned_document (name location url : value) (zoom : float) (o : object) :
  NoDup (map fst o) ->
  let doc := toJSON_props (assigned name location url zoom o) in
  getOwn doc "name" = toJSON name /\
  getOwn doc "location" = toJSON location /\
  getOwn doc "url" = toJSON url /\
  getOwn doc "zoomFactor" = toJSON (VNum zoom).
Proof.
  intros Hnd doc.
  pose proof (NoDup_assigned name location url zoom o Hnd) as Hnd'.
  destruct (assigned_fields name location url zoom o) as (Hn & Hl & Hu & Hz).
  unfold doc.
  repeat split; apply getOwn_toJSON_props; assumption.
Qed.



(** X6. When the read of one property of [data.payload.props] raises a
    [TypeError], the read of every property does: [saveProps] throws at
    its first line and has changed nothing, neither [config], nor the
    file, nor the window. It does not assign some of the four
    properties and fail on another. *)
Theorem saveProps_without_props (data : value) (st : State) (k : string) :
  propsField data k = None ->
  saveProps data st = (Throw TypeError, st).
Proof.
  intros Hk. apply saveProps_throws.
  apply (propsField_none data k). exact Hk.
Qed.

(** X7. When the file cannot be written, [saveProps] throws the error of
    [writeFile] after it has assigned the four properties: [config] has
    the new values, the file has its old content, and the window is
    left on the page and the zoom factor it had. *)
Theorem saveProps_disk_failure
    (data : value) (st : State) (name location url zoom : value) :
  propsField data "name" = Some name ->
  propsField data "location" = Some location ->
  propsField data "url" = Some url ->
  propsField data "zoomFactor" = Some zoom ->
  diskWritable st = false ->
  let st' := snd (saveProps data st) in
  fst (saveProps data st) = Throw IOError /\
  configFile st' = configFile st /\
  mainWindow st' = mainWindow st /\
  getOwn (config st') "name" = Some name /\
  getOwn (config st') "location" = Some location /\
  getOwn (config st') "url" = Some url /\
  getOwn (config st') "zoomFactor" = Some (VNum (parseFloat zoom)).
Proof.
  intros Hn Hl Hu Hz Hdisk st'. unfold st'.
  rewrite (saveProps_eq data st name location url zoom Hn Hl Hu Hz).
  cbv zeta. rewrite Hdisk. simpl.
  destruct (assigned_fields name location url (parseFloat zoom) (config st))
    as (Fn & Fl & Fu & Fz).
  repeat split; assumption.
Qed.

(** X8. Before [createMainWindow] has run, [saveProps] writes the file
    and then throws a [TypeError] on [mainWindow], which is [null]: the
    new properties are in the file although the call failed. *)
Theorem saveProps_without_window
    (data : value) (st : State) (name location url zoom : value) :
  propsField data "name" = Some name ->
  propsField data "location" = Some location ->
  propsField data "url" = Some url ->
  propsField data "zoomFactor" = Some zoom ->
  NoDup (map fst (config st)) ->
  diskWritable st = true ->
  mainWindow st = None ->
  let st' := snd (saveProps data st) in
  fst (saveProps data st) = Throw TypeError /\
  mainWindow st' = None /\
  fileProps st' = toJSON_props (config st') /\
  getOwn (fileProps st') "name" = toJSON name /\
  getOwn (fileProps st') "location" = toJSON location /\
  getOwn (fileProps st') "url" = toJSON url /\
  getOwn (fileProps st') "zoomFactor" = toJSON (VNum (parseFloat zoom)).
Proof.
  intros Hn Hl Hu Hz Hnd Hdisk Hwin st'. unfold st'.
  rewrite (saveProps_eq data st name location url zoom Hn Hl Hu Hz).
  cbv zeta. rewrite Hdisk, Hwin. unfold fileProps. simpl.
  destruct (assigned_document name location url (parseFloat zoom) (config st) Hnd)
    as (Dn & Dl & Du & Dz).
  repeat split; assumption.
Qed.




Lemma saveProps_config (data : value) (st : State) (name location url zoom : value) :
  propsField data "name" = Some name ->
  propsField data "location" = Some location ->
  propsField data "url" = Some url ->
  propsField data "zoomFactor" = Some zoom ->
  config (snd (saveProps data st)) =
  assigned name location url (parseFloat zoom) (config st).
Proof.
  intros Hn Hl Hu Hz.
  rewrite (saveProps_eq data st name location url zoom Hn Hl Hu Hz).
  cbv zeta. destruct (diskWritable st); [destruct (mainWindow st)|]; reflexivity.
Qed.






End SavePropsProperties.

Section OverlapProperties.
Import JS JSON Kiosk Session Overlap.
Context {rt : Runtime}.

Lemma saveProps_begin_eq (data : value) (st : State)
    (name location url zoom : value) :
  propsField data "name" = Some name ->
  propsField data "location" = Some location ->
  propsField data "url" = Some url ->
  propsField data "zoomFactor" = Some zoom ->
  saveProps_begin data st =
  let c := assigned name location url (parseFloat zoom) (config st) in
  (Return (VObj (toJSON_props c)),
   {| config := c;
      configFile := configFile st;
      diskWritable := diskWritable st;
      mainWindow := mainWindow st |}).
Proof.
  intros Hn Hl Hu Hz. unfold saveProps_begin.
  rewrite Hn, Hl, Hu, Hz. reflexivity.
Qed.


(** A call whose [writeFile] ends before anything else happens is
    [saveProps] in one step: it leaves [config], the window and the
    file as [saveProps] does. *)
Lemma run_alone (data : value) (st : State) :
  let s := run [Invoke data; Written 0] (idle st) in
  config (kiosk s) = config (snd (saveProps data st)) /\
  mainWindow (kiosk s) = mainWindow (snd (saveProps data st)) /\
  file s = Holds (configFile (snd (saveProps data st))) /\
  awaiting s = [].
Proof.
  destruct (propsField data "name") as [name|] eqn:Hname.
  - destruct (propsField_some data "name" "location" name Hname) as [location Hl].
    destruct (propsField_some data "name" "url" name Hname) as [url Hu].
    destruct (propsField_some data "name" "zoomFactor" name Hname) as [zoom Hz].
    rewrite (saveProps_eq data st name location url zoom Hname Hl Hu Hz).
    cbn [run handle idle kiosk awaiting file].
    rewrite (saveProps_begin_eq data st name location url zoom Hname Hl Hu Hz).
    cbv zeta.
    cbn [app map nth_error firstn skipn kiosk awaiting file message document alone].
    unfold saveProps_resume. rewrite Hu, Hz.
    destruct st as [c f [|] [w|]]; repeat split.
  - rewrite (saveProps_throws data st Hname).
    cbn [run handle idle kiosk awaiting file].
    unfold saveProps_begin, bind. rewrite Hname. repeat split.
Qed.


End OverlapProperties.

(* ================================================================== *)
(** * Request signing: the fields signed and the body as it is
      transmitted *)
(* ================================================================== *)

Section DocumentProperties.
Import JS JSON.

(** The document of a value is its own document. *)
Lemma toJSON_idempotent : forall (v j : value), toJSON v = Some j -> toJSON j = Some j.
Proof.
  fix IH 1. intros v j. destruct v as [| |b|x|s|elems|props]; simpl; intros H.
  - discriminate H.
  - injection H as <-. reflexivity.
  - injection H as <-. reflexivity.
  - destruct (is_finite x) eqn:Hfin.
    + injection H as <-. destruct (is_zero x) eqn:Hzero; simpl.
      * reflexivity.
      * rewrite Hfin, Hzero. reflexivity.
    + injection H as <-. reflexivity.
  - injection H as <-. reflexivity.
  - injection H as <-. simpl. do 2 f_equal.
    induction elems as [|e rest IHrest]; simpl.
    + reflexivity.
    + f_equal; [|exact IHrest].
      destruct (toJSON e) as [je|] eqn:He.
      * rewrite (IH e je He). reflexivity.
      * reflexivity.
  - injection H as <-. simpl. do 2 f_equal.
    induction props as [|[k e] rest IHrest]; simpl.
    + reflexivity.
    + destruct (toJSON e) as [je|] eqn:He.
      * rewrite (IH e je He). f_equal. exact IHrest.
      * exact IHrest.
Qed.

End DocumentProperties.

Section FramingProperties.
Import SignatureCodec Framing.

(** A text is cut at its first line feed in one way only. *)
Lemma newline_split (a a' r r' : string) :
  hasNewline a = false -> hasNewline a' = false ->
  (a ++ newline ++ r)%string = (a' ++ newline ++ r')%string ->
  a = a' /\ r = r'.
Proof.
  revert a'. induction a as [|c a IH]; intros [|c' a'] Ha Ha' H; simpl in *.
  - injection H as H. split; [reflexivity | exact H].
  - injection H as Hc H. subst c'. simpl in Ha'. discriminate Ha'.
  - injection H as Hc H. subst c. simpl in Ha. discriminate Ha.
  - injection H as Hc H. subst c'.
    apply orb_false_iff in Ha, Ha'.
    destruct (IH a' (proj2 Ha) (proj2 Ha') H) as [-> ->].
    split; reflexivity.
Qed.

End FramingProperties.

Section PayloadProperties.
Import JS JSON SignatureCodec Framing.
Context {rt : Runtime} {E : Ed25519}.

(** X3. The payload determines what was signed: two requests whose
    methods, paths and time stamps have no line feed in them have the
    same payload only if they have the same method, the same path, the
    same time stamp and bodies that are written alike. *)
Theorem payload_injective :
  forall (method path timestamp method' path' timestamp' : string)
         (body body' : value),
    hasNewline method = false -> hasNewline path = false ->
    hasNewline timestamp = false ->
    hasNewline method' = false -> hasNewline path' = false ->
    hasNewline timestamp' = false ->
    payload method path timestamp body = payload method' path' timestamp' body' ->
    method = method' /\ path = path' /\ timestamp = timestamp' /\
    interpolate (stringify body) = interpolate (stringify body').
Proof.
  intros method path timestamp method' path' timestamp' body body'
         Hm Hp Ht Hm' Hp' Ht' H.
  unfold payload in H.
  apply newline_split in H; [|assumption|assumption]. destruct H as [-> H].
  apply newline_split in H; [|assumption|assumption]. destruct H as [-> H].
  apply newline_split in H; [|assumption|assumption]. destruct H as [-> H].
  repeat split. exact H.
Qed.

(** X4. The device transmits [JSON.stringify] of the body it signs, and
    the verifier holds the value read from that text, the document of
    the body. The payload the verifier builds over it is the payload
    that was built over the body, also where the document is not the
    value signed (a property that was [undefined], a number that was
    not finite). *)
Theorem payload_of_transmitted_body :
  forall (method path timestamp : string) (body document : value),
    toJSON body = Some document ->
    payload method path timestamp document = payload method path timestamp body.
Proof.
  intros method path timestamp body document Hdoc.
  unfold payload, stringify.
  rewrite (toJSON_idempotent body document Hdoc), Hdoc. reflexivity.
Qed.

End PayloadProperties.

(* ================================================================== *)
(** * The information overlay *)
(* ================================================================== *)

Section OverlayProperties.
Import JS JSON Overlay.

Lemma getOwn_delete_same (o : object) (k : string) :
  getOwn (delete o k) k = None.
Proof.
  induction o as [|[k0 v0] rest IH]; simpl.
  - reflexivity.
  - destruct (String.eqb k k0) eqn:Hk; simpl; [|rewrite Hk]; exact IH.
Qed.

Lemma getOwn_delete (o : object) (k k' : string) :
  k <> k' -> getOwn (delete o k') k = getOwn o k.
Proof.
  intros Hne. induction o as [|[k0 v0] rest IH]; simpl.
  - reflexivity.
  - destruct (String.eqb k' k0) eqn:Hk'; simpl.
    + apply String.eqb_eq in Hk'. subst k0.
      assert (Hk : String.eqb k k' = false) by (apply String.eqb_neq; exact Hne).
      rewrite Hk. exact IH.
    + rewrite IH. reflexivity.
Qed.

Lemma NoDup_delete (o : object) (k : string) :
  NoDup (map fst o) -> NoDup (map fst (delete o k)).
Proof.
  induction o as [|[k0 v0] rest IH]; simpl; intros Hnd.
  - exact Hnd.
  - inversion Hnd as [|? ? Hnotin Hnd']; subst.
    destruct (String.eqb k k0); simpl; [apply IH; exact Hnd'|].
    constructor; [|apply IH; exact Hnd'].
    intros Hin. apply Hnotin.
    unfold delete in Hin. apply in_map_iff in Hin.
    destruct Hin as (kv & Hfst & Hkv). apply filter_In in Hkv.
    apply in_map_iff. exists kv. split; [exact Hfst | apply Hkv].
Qed.

(** [find] stops at the first element the predicate holds of: what
    comes after it is not looked at. *)
Lemma find_first (predicate : value -> option bool) (before after : list value)
    (e : value) :
  Forall (fun v => predicate v = Some false) before ->
  predicate e = Some true ->
  find predicate (before ++ e :: after) = Some e.
Proof.
  intros Hbefore He. induction Hbefore as [|v before Hv _ IH]; simpl.
  - rewrite He. reflexivity.
  - rewrite Hv. exact IH.
Qed.

Lemma find_none (predicate : value -> option bool) (elems : list value) :
  Forall (fun v => predicate v = Some false) elems ->
  find predicate elems = Some VUndefined.
Proof.
  intros Hall. induction Hall as [|v elems Hv _ IH]; simpl.
  - reflexivity.
  - rewrite Hv. exact IH.
Qed.

(** [getSystemInfo], for an object with its interfaces in an array, by
    what [find] gives. *)
Lemma getSystemInfo_eq (props : object) (ifaces : list value)
    (found serial : value) :
  get props "networkInterfaces" = VArr ifaces ->
  find isDefault ifaces = Some found ->
  member (get props "osInfo") "serial" = Some serial ->
  getSystemInfo (VObj props) =
  Some (VObj [("serial"%string, serial);
              ("system"%string,
               VObj (delete (set props "defaultNetworkInterface" found)
                       "networkInterfaces"))]).
Proof.
  intros Hifaces Hfind Hserial.
  unfold getSystemInfo. unfold member at 1. rewrite Hifaces, Hfind.
  cbv zeta.
  assert (Hos : get (delete (set props "defaultNetworkInterface" found)
                       "networkInterfaces") "osInfo" = get props "osInfo").
  { unfold get. rewrite getOwn_delete, getOwn_set by discriminate. reflexivity. }
  rewrite Hos, Hserial. reflexivity.
Qed.

(** The page, for a message made of [config] and of a system
    information of the form [getSystemInfo] gives. *)
Lemma onSetInfoText_eq (config system : object) (serial : value) :
  let systemInfo :=
    VObj [("serial"%string, serial); ("system"%string, VObj system)] in
  onSetInfoText (infoText config systemInfo) =
  Some {| ipAddress :=
            orElse (optionalMember
                      (get (toJSON_props system) "defaultNetworkInterface")
                      "ip4")
                   (VStr "No IP");
          info := infoText config systemInfo |}.
Proof.
  intros systemInfo.
  assert (Hdevice : get (toJSON_props [("config"%string, VObj config);
                                       ("device"%string, systemInfo)]) "device" =
                    VObj (toJSON_props [("serial"%string, serial);
                                        ("system"%string, VObj system)])).
  { unfold get.
    rewrite (getOwn_toJSON_props_some _ "device" systemInfo
               (VObj (toJSON_props [("serial"%string, serial);
                                    ("system"%string, VObj system)])));
      reflexivity. }
  assert (Hsystem : get (toJSON_props [("serial"%string, serial);
                                       ("system"%string, VObj system)]) "system" =
                    VObj (toJSON_props system)).
  { unfold get.
    rewrite (getOwn_toJSON_props_some _ "system" (VObj system)
               (VObj (toJSON_props system))); reflexivity. }
  unfold onSetInfoText, infoText. cbn [member]. rewrite Hdevice.
  unfold optionalMember. cbn [member]. rewrite Hsystem.
  reflexivity.
Qed.

(** X12. What [getSystemInfo] returns, when it returns: the serial
    number of [osInfo], and under [system] the object [sysInfo.get] gave
    with the list of the network interfaces taken out, with what [find]
    gave under [defaultNetworkInterface], and with every other property
    as it was. *)
Theorem getSystemInfo_system (si systemInfo : value) :
  getSystemInfo si = Some systemInfo ->
  exists (props system : object) (serial found : value) (ifaces : list value),
    si = VObj props /\
    systemInfo =
      VObj [("serial"%string, serial); ("system"%string, VObj system)] /\
    member (get props "osInfo") "serial" = Some serial /\
    get props "networkInterfaces" = VArr ifaces /\
    find isDefault ifaces = Some found /\
    getOwn system "defaultNetworkInterface" = Some found /\
    getOwn system "networkInterfaces" = None /\
    forall k : string,
      k <> "networkInterfaces"%string ->
      k <> "defaultNetworkInterface"%string ->
      getOwn system k = getOwn props k.
Proof.
  unfold getSystemInfo. intros H.
  destruct (member si "networkInterfaces") as [[| | | | |ifaces|]|] eqn:Hm;
    try discriminate H.
  destruct (find isDefault ifaces) as [found|] eqn:Hfind; [|discriminate H].
  destruct si as [| | | | | |props]; try discriminate H.
  cbv zeta in H.
  assert (Hos : get (delete (set props "defaultNetworkInterface" found)
                       "networkInterfaces") "osInfo" = get props "osInfo").
  { unfold get. rewrite getOwn_delete, getOwn_set by discriminate. reflexivity. }
  rewrite Hos in H.
  destruct (member (get props "osInfo") "serial") as [serial|] eqn:Hserial;
    [|discriminate H].
  injection H as <-.
  exists props,
    (delete (set props "defaultNetworkInterface" found) "networkInterfaces"),
    serial, found, ifaces.
  split; [reflexivity|]. split; [reflexivity|].
  split; [exact Hserial|]. split; [injection Hm as Hm; exact Hm|].
  split; [exact Hfind|]. split; [|split].
  - rewrite getOwn_delete by discriminate. apply getOwn_set_same.
  - apply getOwn_delete_same.
  - intros k Hk Hk'. rewrite getOwn_delete, getOwn_set by assumption. reflexivity.
Qed.

(** X13. The address the overlay shows: with the list of interfaces
    [sysInfo.get] gives, [getSystemInfo] completes, and the page that
    gets the message of [showInfoWindow] shows the [ip4] of the first
    interface whose [default] is [true], whatever comes after it in the
    list; when that [ip4] is the empty string it shows [No IP]. *)
Theorem overlay_shows_default_ip4
    (config props iface : object) (before after : list value)
    (serial : value) (s : string) :
  get props "networkInterfaces" = VArr (before ++ VObj iface :: after) ->
  Forall (fun v => isDefault v = Some false) before ->
  get iface "default" = VBool true ->
  get iface "ip4" = VStr s ->
  member (get props "osInfo") "serial" = Some serial ->
  exists (systemInfo : value) (page : InfoPage),
    getSystemInfo (VObj props) = Some systemInfo /\
    onSetInfoText (infoText config systemInfo) = Some page /\
    ipAddress page = VStr (if String.eqb s "" then "No IP" else s).
Proof.
  intros Hifaces Hbefore Hdefault Hip Hserial.
  assert (Hfind : find isDefault (before ++ VObj iface :: after) = Some (VObj iface)).
  { apply find_first; [exact Hbefore|].
    unfold isDefault, member. rewrite Hdefault. reflexivity. }
  eexists. eexists. split; [|split].
  - apply (getSystemInfo_eq props _ (VObj iface) serial Hifaces Hfind Hserial).
  - apply onSetInfoText_eq.
  - cbn [ipAddress].
    assert (Hsys : get (toJSON_props
                          (delete (set props "defaultNetworkInterface" (VObj iface))
                             "networkInterfaces")) "defaultNetworkInterface" =
                   VObj (toJSON_props iface)).
    { unfold get.
      rewrite (getOwn_toJSON_props_some _ "defaultNetworkInterface" (VObj iface)
                 (VObj (toJSON_props iface))); [reflexivity| |reflexivity].
      rewrite getOwn_delete by discriminate. apply getOwn_set_same. }
    rewrite Hsys. unfold optionalMember. cbn [member].
    assert (Hown : getOwn iface "ip4" = Some (VStr s)).
    { unfold get in Hip. destruct (getOwn iface "ip4") as [v|];
        [rewrite Hip; reflexivity | discriminate Hip]. }
    unfold get.
    rewrite (getOwn_toJSON_props_some iface "ip4" (VStr s) (VStr s) Hown eq_refl).
    unfold orElse, truthy. destruct (String.eqb s ""); reflexivity.
Qed.

(** X14. With no interface whose [default] is [true] the overlay shows
    [No IP], whatever addresses the interfaces have: [find] gives
    [undefined], which [JSON.stringify] leaves out of the message. *)
Theorem overlay_without_default_interface
    (config props : object) (ifaces : list value) (serial : value) :
  NoDup (map fst props) ->
  get props "networkInterfaces" = VArr ifaces ->
  Forall (fun v => isDefault v = Some false) ifaces ->
  member (get props "osInfo") "serial" = Some serial ->
  exists (systemInfo : value) (page : InfoPage),
    getSystemInfo (VObj props) = Some systemInfo /\
    onSetInfoText (infoText config systemInfo) = Some page /\
    ipAddress page = VStr "No IP".
Proof.
  intros Hnd Hifaces Hall Hserial.
  pose proof (find_none isDefault ifaces Hall) as Hfind.
  eexists. eexists. split; [|split].
  - apply (getSystemInfo_eq props _ VUndefined serial Hifaces Hfind Hserial).
  - apply onSetInfoText_eq.
  - cbn [ipAddress].
    assert (Hsys : get (toJSON_props
                          (delete (set props "defaultNetworkInterface" VUndefined)
                             "networkInterfaces")) "defaultNetworkInterface" =
                   VUndefined).
    { unfold get.
      rewrite (getOwn_toJSON_props _ "defaultNetworkInterface" VUndefined).
      - reflexivity.
      - apply NoDup_delete, NoDup_set. exact Hnd.
      - rewrite getOwn_delete by discriminate. apply getOwn_set_same. }
    rewrite Hsys. reflexivity.
Qed.

(** X15. While the overlay is shown a timer is pending that hides it,
    and the first of them is due within ten seconds: the overlay does
    not stay on the screen. *)
Theorem overlay_hide_is_pending (systemInfo : value) (now : Z) (w : InfoWindow) :
  trace systemInfo now w ->
  visible w = true ->
  exists (due : Z) (rest : list Z),
    hideTimers w = due :: rest /\ (due <= now + 10000)%Z.
Proof.
  intros Htrace.
  assert (Hinv : Forall (fun due => due <= now + 10000)%Z (hideTimers w) /\
                 (visible w = true -> hideTimers w <> [])).
  { induction Htrace as [now|clock now config w _ [IHdue IHvis] Hclock
                         |clock now due rest w _ [IHdue IHvis] Htimers Hclock Hdue];
      simpl.
    - split; [constructor | discriminate].
    - split.
      + apply Forall_app. split.
        * eapply Forall_impl; [|exact IHdue]. simpl. intros d Hd. lia.
        * repeat constructor. lia.
      + intros _. destruct (hideTimers w); discriminate.
    - split; [|discriminate].
      rewrite Htimers in *. simpl. inversion IHdue as [|? ? _ Hrest]; subst.
      eapply Forall_impl; [|exact Hrest]. simpl. intros d Hd. lia. }
  destruct Hinv as [Hdue Hvis]. intros Hshown.
  specialize (Hvis Hshown).
  destruct (hideTimers w) as [|due rest] eqn:Htimers; [contradiction Hvis; reflexivity|].
  exists due, rest. split; [reflexivity|].
  inversion Hdue; subst. assumption.
Qed.

End OverlayProperties.

Section OverlayOfSavedProps.
Import JS JSON Kiosk Session Overlay.
Context {rt : Runtime}.

(** X18. The overlay shows [config] as it is in memory: after a
    [saveProps], also one that failed on the file or on the window, the
    message of [showInfoWindow] has the four properties as they were
    given, and the page displays that message. After a failure to write
    this is not what [config.json] holds. *)
Theorem overlay_shows_config_in_memory
    (data : value) (st : State) (name location url zoom systemInfo : value) :
  propsField data "name" = Some name ->
  propsField data "location" = Some location ->
  propsField data "url" = Some url ->
  propsField data "zoomFactor" = Some zoom ->
  NoDup (map fst (config st)) ->
  let st' := snd (saveProps data st) in
  exists (page : InfoPage) (shown : object),
    onSetInfoText (infoText (config st') systemInfo) = Some page /\
    member (info page) "config" = Some (VObj shown) /\
    getOwn shown "name" = toJSON name /\
    getOwn shown "location" = toJSON location /\
    getOwn shown "url" = toJSON url /\
    getOwn shown "zoomFactor" = toJSON (VNum (parseFloat zoom)) /\
    (diskWritable st = false -> configFile st' = configFile st).
Proof.
  intros Hn Hl Hu Hz Hnd st'.
  assert (Hconfig : config st' =
                    assigned name location url (parseFloat zoom) (config st))
    by (apply saveProps_config; assumption).
  destruct (assigned_document name location url (parseFloat zoom) (config st) Hnd)
    as (Dn & Dl & Du & Dz).
  rewrite <- Hconfig in Dn, Dl, Du, Dz.
  eexists. exists (toJSON_props (config st')).
  split; [unfold onSetInfoText, infoText; cbn [member]; reflexivity|].
  cbn [info]. split.
  { unfold infoText. cbn [member]. unfold get.
    rewrite (getOwn_toJSON_props_some _ "config" (VObj (config st'))
               (VObj (toJSON_props (config st')))); reflexivity. }
  repeat (split; [assumption|]).
  intros Hdisk. unfold st'.
  rewrite (saveProps_eq data st name location url zoom Hn Hl Hu Hz).
  cbv zeta. rewrite Hdisk. reflexivity.
Qed.

End OverlayOfSavedProps.

(* ================================================================== *)
(** * The installer *)
(* ================================================================== *)

Section DeployProperties.
Import SignatureCodec Deploy.

Lemma append_associative (a b c : string) :
  ((a ++ b) ++ c)%string = (a ++ (b ++ c))%string.
Proof.
  induction a as [|x a IH]; simpl; [|rewrite IH]; reflexivity.
Qed.

Lemma prefix_iff (pattern text : string) :
  prefix pattern text = true <-> exists rest, text = (pattern ++ rest)%string.
Proof.
  revert text. induction pattern as [|c pattern IH]; intros text.
  - split; [intros _; exists text; reflexivity | intros _; destruct text; reflexivity].
  - destruct text as [|d text]; simpl.
    + split; [discriminate | intros [rest H]; discriminate H].
    + destruct (ascii_dec c d) as [->|Hne].
      * rewrite IH. split.
        -- intros [rest ->]. exists rest. reflexivity.
        -- intros [rest H]. injection H as H. exists rest. exact H.
      * split; [discriminate|].
        intros [rest H]. injection H as Hc _. contradiction Hne.
        symmetry; exact Hc.
Qed.

(** [contains] is true of the texts that have the pattern somewhere in
    them. *)
Lemma contains_iff (pattern text : string) :
  contains pattern text = true <->
  exists before after, text = (before ++ pattern ++ after)%string.
Proof.
  split.
  - induction text as [|c text IH]; cbn [contains].
    + intros H. apply prefix_iff in H. destruct H as [rest H].
      exists ""%string, rest. exact H.
    + intros H. apply orb_true_iff in H. destruct H as [H|H].
      * apply prefix_iff in H. destruct H as [rest H].
        exists ""%string, rest. exact H.
      * destruct (IH H) as (before & after & ->).
        exists (String c before), after. reflexivity.
  - intros (before & after & ->).
    induction before as [|c before IH]; simpl.
    + assert (H : prefix pattern (pattern ++ after) = true)
        by (apply prefix_iff; exists after; reflexivity).
      destruct (pattern ++ after)%string; [exact H|].
      cbn [contains]. rewrite H. reflexivity.
    + rewrite IH. apply orb_true_r.
Qed.

(** The job the installer adds is one that [grep -F "git pull"] finds. *)
Lemma contains_CRON_CMD (REPO_DIR USER crontab : string) :
  contains "git pull" (crontab ++ CRON_CMD REPO_DIR USER ++ newline) = true.
Proof.
  apply contains_iff.
  exists (crontab ++ "0 6 * * * cd " ++ REPO_DIR ++ " && /usr/bin/")%string,
         (" && /home/" ++ USER
            ++ "/.nvm/versions/node/v18*/bin/npm install" ++ newline)%string.
  unfold CRON_CMD. rewrite !append_associative. reflexivity.
Qed.

Lemma contains_autostart (profile : string) :
  contains "KIOSK AUTOSTART" (profile ++ autostart) = true.
Proof.
  apply contains_iff.
  exists (profile ++ newline ++ "# ")%string,
         (newline
          ++ "if [[ -z $DISPLAY ]] && [[ $(tty) = /dev/tty1 ]]; then" ++ newline
          ++ "  startx" ++ newline ++ "fi" ++ newline)%string.
  unfold autostart. rewrite !append_associative. reflexivity.
Qed.

Lemma withAutostart_twice (profile : string) :
  withAutostart (withAutostart profile) = withAutostart profile.
Proof.
  assert (Hhas : contains "KIOSK AUTOSTART" (withAutostart profile) = true).
  { unfold withAutostart.
    destruct (contains "KIOSK AUTOSTART" profile) eqn:Hc;
      [exact Hc | apply contains_autostart]. }
  unfold withAutostart at 1. rewrite Hhas. reflexivity.
Qed.

Lemma withAutostart_cases (profile : string) :
  ((exists before after,
      profile = (before ++ "KIOSK AUTOSTART" ++ after)%string) ->
   withAutostart profile = profile) /\
  (~ (exists before after,
        profile = (before ++ "KIOSK AUTOSTART" ++ after)%string) ->
   withAutostart profile = (profile ++ autostart)%string).
Proof.
  unfold withAutostart. split; intros H.
  - apply contains_iff in H. rewrite H. reflexivity.
  - destruct (contains "KIOSK AUTOSTART" profile) eqn:Hc; [|reflexivity].
    contradiction H. apply contains_iff. exact Hc.
Qed.

(** X16. The installer adds the daily update job once. A table that has
    [git pull] in it, in a job or anywhere else, is left as it is; to
    any other table the job is added at the end, after what was there.
    Run again, also for another directory or another user, the
    installer leaves the table as the first run made it, so that the
    job of the first run stays. *)
Theorem installCron_once (REPO_DIR USER REPO_DIR' USER' crontab : string) :
  ((exists before after, crontab = (before ++ "git pull" ++ after)%string) ->
   installCron REPO_DIR USER crontab = crontab) /\
  (~ (exists before after, crontab = (before ++ "git pull" ++ after)%string) ->
   installCron REPO_DIR USER crontab =
     (crontab ++ CRON_CMD REPO_DIR USER ++ newline)%string) /\
  installCron REPO_DIR' USER' (installCron REPO_DIR USER crontab) =
    installCron REPO_DIR USER crontab.
Proof.
  split; [|split].
  - intros H. apply contains_iff in H. unfold installCron. rewrite H. reflexivity.
  - intros H. unfold installCron.
    destruct (contains "git pull" crontab) eqn:Hc; [|reflexivity].
    contradiction H. apply contains_iff. exact Hc.
  - assert (Hhas : contains "git pull" (installCron REPO_DIR USER crontab) = true).
    { unfold installCron.
      destruct (contains "git pull" crontab) eqn:Hc;
        [exact Hc | apply contains_CRON_CMD]. }
    unfold installCron at 1. rewrite Hhas. reflexivity.
Qed.

(** X17. The installer adds the start of the kiosk to one profile, once.
    The profile is [.bash_profile] when that file exists, and [.bashrc]
    when it does not; the other file is left as it is, and
    [.bash_profile] is not made. A profile that has [KIOSK AUTOSTART] in
    it is left as it is; to any other the block is added at the end,
    after what was there, and a [.bashrc] that did not exist is made of
    the block alone. Run again the installer changes nothing. *)
Theorem installAutostart_once (home : Home) :
  (forall profile : string,
     bash_profile home = Some profile ->
     bashrc (installAutostart home) = bashrc home /\
     ((exists before after,
         profile = (before ++ "KIOSK AUTOSTART" ++ after)%string) ->
      bash_profile (installAutostart home) = Some profile) /\
     (~ (exists before after,
           profile = (before ++ "KIOSK AUTOSTART" ++ after)%string) ->
      bash_profile (installAutostart home) = Some (profile ++ autostart)%string)) /\
  (forall profile : string,
     bash_profile home = None ->
     bashrc home = Some profile ->
     bash_profile (installAutostart home) = None /\
     ((exists before after,
         profile = (before ++ "KIOSK AUTOSTART" ++ after)%string) ->
      bashrc (installAutostart home) = Some profile) /\
     (~ (exists before after,
           profile = (before ++ "KIOSK AUTOSTART" ++ after)%string) ->
      bashrc (installAutostart home) = Some (profile ++ autostart)%string)) /\
  (bash_profile home = None ->
   bashrc home = None ->
   bash_profile (installAutostart home) = None /\
   bashrc (installAutostart home) = Some autostart) /\
  installAutostart (installAutostart home) = installAutostart home.
Proof.
  destruct home as [[profile|] rc]; unfold installAutostart; simpl.
  - split; [|split; [|split]].
    + intros p Hp. injection Hp as <-.
      destruct (withAutostart_cases profile) as [Hhas Hnot].
      split; [reflexivity|]. split; intros H.
      * rewrite (Hhas H). reflexivity.
      * rewrite (Hnot H). reflexivity.
    + intros p Hp. discriminate Hp.
    + intros Hp. discriminate Hp.
    + rewrite withAutostart_twice. reflexivity.
  - split; [|split; [|split]].
    + intros p Hp. discriminate Hp.
    + intros p _ Hrc. subst rc.
      destruct (withAutostart_cases p) as [Hhas Hnot].
      split; [reflexivity|]. split; intros H.
      * rewrite (Hhas H). reflexivity.
      * rewrite (Hnot H). reflexivity.
    + intros _ Hrc. subst rc. split; reflexivity.
    + rewrite withAutostart_twice. reflexivity.
Qed.

End DeployProperties.

(* ================================================================== *)
(** * The further properties on examples *)
(* ================================================================== *)

Section FurtherScenarios.
Import JS JSON Kiosk Session SignatureCodec Framing Overlay Deploy.
Import Reference Fixtures.

Lemma NoDup_deployedConfig : NoDup (map fst (config showing)).
Proof.
  repeat (constructor; [simpl; intuition discriminate|]). constructor.
Defined.

(** X6 on a message without [props]: the kiosk stays as it is. *)
Lemma saveProps_without_props_witness :
  saveProps noProps showing = (Throw TypeError, showing).
Proof.
  apply (@saveProps_without_props runtime noProps showing "url"%string).
  reflexivity.
Defined.

(** X7 on a disk that has become read-only: [config] has the new name,
    the file the old one, and the window still shows the old page. *)
Lemma saveProps_disk_failure_witness :
  let st' := snd (saveProps newProps readOnly) in
  fst (saveProps newProps readOnly) = Throw IOError /\
  getOwn (config st') "name" = Some (VStr "lobby-1") /\
  getOwn (fileProps st') "name" = Some (VStr "lobby-display-01") /\
  option_map loadedURL (mainWindow st') =
    Some (Some (VStr "https://example.com/display")).
Proof.
  destruct (@saveProps_disk_failure runtime newProps readOnly
              (VStr "lobby-1") (VStr "Hall") (VStr "https://x") (VStr "2")
              eq_refl eq_refl eq_refl eq_refl eq_refl)
    as (Hthrow & Hfile & Hwin & Hname & _).
  intros st'. subst st'.
  split; [exact Hthrow|]. split; [exact Hname|].
  unfold fileProps. rewrite Hfile, Hwin. split; reflexivity.
Defined.

(** X8 before the window is made: the call fails, and the file has the
    new properties. *)
Lemma saveProps_without_window_witness :
  let st' := snd (saveProps newProps starting) in
  fst (saveProps newProps starting) = Throw TypeError /\
  getOwn (fileProps st') "url" = Some (VStr "https://x") /\
  getOwn (fileProps st') "zoomFactor" = Some (VNum 2%float).
Proof.
  destruct (@saveProps_without_window runtime newProps starting
              (VStr "lobby-1") (VStr "Hall") (VStr "https://x") (VStr "2")
              eq_refl eq_refl eq_refl eq_refl NoDup_deployedConfig
              eq_refl eq_refl)
    as (Hthrow & _ & _ & _ & _ & Hurl & Hzoom).
  intros st'. subst st'.
  split; [exact Hthrow|]. split; [exact Hurl | exact Hzoom].
Defined.






(** X3 on two polls with one payload: they differ in the body only, and
    the two bodies are written alike. *)
Lemma payload_injective_witness :
  interpolate (stringify sparseBody) = interpolate (stringify sparseDocument).
Proof.
  apply (@payload_injective runtime
           "POST"%string heartbeatPath heartbeatTime
           "POST"%string heartbeatPath heartbeatTime
           sparseBody sparseDocument
           eq_refl eq_refl eq_refl eq_refl eq_refl eq_refl eq_refl).
Defined.

(** X4 on a body with an [undefined] property: the verifier holds the
    body without it, and builds the payload that was signed. *)
Lemma payload_of_transmitted_body_witness :
  sparseDocument <> sparseBody /\
  payload "POST" heartbeatPath heartbeatTime sparseDocument =
  payload "POST" heartbeatPath heartbeatTime sparseBody.
Proof.
  split; [discriminate|].
  apply (@payload_of_transmitted_body runtime
           "POST"%string heartbeatPath heartbeatTime sparseBody sparseDocument).
  reflexivity.
Defined.

(** X12 on the example device: the information has the serial number
    and no list of interfaces. *)
Lemma getSystemInfo_system_witness :
  exists (system : object),
    getSystemInfo (VObj piInfo) =
      Some (VObj [("serial"%string, VStr "10000000a1b2c3d4");
                  ("system"%string, VObj system)]) /\
    getOwn system "networkInterfaces" = None /\
    getOwn system "defaultNetworkInterface" = Some (VObj wired) /\
    getOwn system "cpu" = getOwn piInfo "cpu".
Proof.
  destruct (getSystemInfo (VObj piInfo)) as [systemInfo|] eqn:Hinfo;
    [|discriminate Hinfo].
  destruct (getSystemInfo_system (VObj piInfo) systemInfo Hinfo)
    as (props & system & serial & found & ifaces
        & Hsi & Hshape & Hserial & Hifaces & Hfind & Hdefault & Hlist & Hrest).
  injection Hsi as <-.
  injection Hserial as <-.
  injection Hifaces as <-.
  injection Hfind as <-.
  exists system. split; [rewrite Hshape; reflexivity|].
  split; [exact Hlist|]. split; [exact Hdefault|].
  apply Hrest; discriminate.
Defined.

(** X13 on the example device: the overlay shows the address of the
    wired interface; the [null] after it in the list does no harm. *)
Lemma overlay_shows_default_ip4_witness :
  exists (systemInfo : value) (page : InfoPage),
    getSystemInfo (VObj piInfo) = Some systemInfo /\
    onSetInfoText (infoText deployedConfig systemInfo) = Some page /\
    ipAddress page = VStr "192.168.1.100".
Proof.
  apply (overlay_shows_default_ip4 deployedConfig piInfo wired
           [VObj loopback] [VNull] (VStr "10000000a1b2c3d4") "192.168.1.100"
           eq_refl).
  - repeat constructor.
  - reflexivity.
  - reflexivity.
  - reflexivity.
Defined.

(** X14 on the device with the cable out: the wireless interface has an
    address, but its [default] is the string [true], not the boolean. *)
Lemma overlay_without_default_interface_witness :
  exists (systemInfo : value) (page : InfoPage),
    getSystemInfo (VObj unplugged) = Some systemInfo /\
    onSetInfoText (infoText deployedConfig systemInfo) = Some page /\
    ipAddress page = VStr "No IP".
Proof.
  apply (overlay_without_default_interface deployedConfig unplugged
           [VObj loopback; VObj wireless] (VStr "10000000a1b2c3d4")).
  - repeat (constructor; [simpl; intuition discriminate|]). constructor.
  - reflexivity.
  - repeat constructor.
  - reflexivity.
Defined.

(** X15 on an overlay shown at its [ready-to-show] and again nine
    seconds later: a timer is pending then, due within ten seconds. It
    is the timer of the first call, which runs out one second later and
    hides the overlay. *)
Lemma overlay_hide_is_pending_witness :
  let w := showInfoWindow deployedConfig VNull 9000
             (showInfoWindow deployedConfig VNull 0 createInfoWindow) in
  (exists (due : Z) (rest : list Z),
     hideTimers w = due :: rest /\ (due <= 9000 + 10000)%Z) /\
  trace VNull 10000 (onTimeout w) /\
  visible (onTimeout w) = false.
Proof.
  intros w.
  assert (Htrace : trace VNull 9000 w).
  { apply (trace_show VNull 0%Z); [|lia].
    apply (trace_show VNull 0%Z); [|lia].
    apply trace_created. }
  split; [|split].
  - apply (overlay_hide_is_pending VNull 9000%Z w Htrace). reflexivity.
  - apply (trace_timeout VNull 9000%Z 10000%Z 10000%Z [19000%Z] w Htrace);
      [reflexivity | lia | lia].
  - reflexivity.
Defined.

(** X18 on the disk that has become read-only: the overlay shows the
    new name, the file has the old one. *)
Lemma overlay_shows_config_in_memory_witness :
  let st' := snd (saveProps newProps readOnly) in
  exists (page : InfoPage) (shown : object),
    onSetInfoText (infoText (config st') VNull) = Some page /\
    member (info page) "config" = Some (VObj shown) /\
    getOwn shown "name" = Some (VStr "lobby-1") /\
    getOwn (fileProps st') "name" = Some (VStr "lobby-display-01").
Proof.
  intros st'.
  destruct (@overlay_shows_config_in_memory runtime newProps readOnly
              (VStr "lobby-1") (VStr "Hall") (VStr "https://x") (VStr "2") VNull
              eq_refl eq_refl eq_refl eq_refl NoDup_deployedConfig)
    as (page & shown & Hpage & Hshown & Hname & _ & _ & _ & Hfile).
  exists page, shown. split; [exact Hpage|]. split; [exact Hshown|].
  split; [exact Hname|].
  unfold fileProps. fold st' in Hfile. rewrite (Hfile eq_refl). reflexivity.
Defined.

End FurtherScenarios.
